(** * Tomography of layered atmospheric turbulence (metapupil/tomography.py)

    A shallow embedding of the [tomography] class: the Zernike covariance
    generators (Kolmogorov and von Karman), the stacking of the projection
    tensor into the system matrix, the forward operator [generateWFS], the
    least-squares solver [solveSVD] and the driver of the sparse solver
    [solveFASTA].

    numpy arrays are MathComp matrices over a field [R] standing for the
    scalars; the special functions of numpy/scipy ([np.sqrt], [sp.gamma],
    the power operator, [np.pi], the spectral norm) and the modules that are
    imported but are not part of the sources ([wavefront], [projection],
    [pyiacsun]) are section variables.  Python exceptions are an explicit
    error type. *)

From Stdlib Require Import String.
From HB Require Import structures.
From mathcomp Require Import ssreflect ssrfun ssrbool eqtype ssrnat seq div.
From mathcomp Require Import choice fintype tuple finfun bigop order.
From mathcomp Require Import ssralg ssrnum ssrint intdiv rat matrix mxalgebra.
From mathcomp Require Import ring.
From Stdlib Require Import PrimFloat.

Set Implicit Arguments.
Unset Strict Implicit.
Unset Printing Implicit Defensive.

Import GRing.Theory Num.Theory.
Local Open Scope ring_scope.

(** ** Python exceptions and the error monad *)

Inductive exn : Type :=
  | ZeroDivisionError
  | LinAlgError
  | AttributeError
  | KeyError.

Inductive result (T : Type) : Type :=
  | Ok of T
  | Raise of exn.

Arguments Raise {T} _.

Definition bind {A B : Type} (m : result A) (k : A -> result B) : result B :=
  match m with
  | Ok a => k a
  | Raise e => Raise e
  end.

Notation "x <- m ;; k" := (bind m (fun x => k))
  (at level 61, m at next level, right associativity).

(** Reading an attribute that may not have been set yet. *)
Definition getattr {A : Type} (o : option A) : result A :=
  if o is Some a then Ok a else Raise AttributeError.

(** ** Dictionaries with string keys ([self.a], [self.aStack]) *)

Section Dict.

Variable V : Type.

Definition dict := seq (string * V).

Fixpoint dict_get (d : dict) (k : string) : option V :=
  match d with
  | [::] => None
  | (k', v) :: d' => if String.eqb k k' then Some v else dict_get d' k
  end.

(** [d[k] = v]: the binding of [k] is replaced in place, a new key is
    appended. *)
Fixpoint dict_set (d : dict) (k : string) (v : V) : dict :=
  match d with
  | [::] => [:: (k, v)]
  | (k', v') :: d' =>
      if String.eqb k k' then (k', v) :: d' else (k', v') :: dict_set d' k v
  end.

Definition dict_item (d : dict) (k : string) : result V :=
  if dict_get d k is Some v then Ok v else Raise KeyError.

End Dict.

(** ** Loops *)

(** [for i in s: st = body(i, st)], where the body may raise. *)
Fixpoint forM {S : Type} (s : seq nat) (body : nat -> S -> result S) (st : S)
  : result S :=
  match s with
  | [::] => Ok st
  | i :: s' => st' <- body i st ;; forM s' body st'
  end.

(** [range(n)] *)
Definition range (n : nat) : seq nat := iota 0 n.

(** ** numpy arrays as matrices *)

Section Arrays.

Variable R : fieldType.

Lemma blk_proof m n (i : 'I_m) (p : 'I_n) : (i * n + p < m * n)%N.
Proof.
apply: (@leq_trans (i.+1 * n)%N); last by rewrite leq_mul2r ltn_ord orbT.
by rewrite mulSn addnC ltn_add2r.
Qed.

(** Position [i*n + p] of a vector of [m] groups of [n] entries. *)
Definition blk m n (i : 'I_m) (p : 'I_n) : 'I_(m * n) := Ordinal (blk_proof i p).

Lemma div_proof m n (k : 'I_(m * n)) : (k %/ n < m)%N.
Proof.
case: n k => [|n] k; first by case: k => k; rewrite muln0.
by rewrite ltn_divLR.
Qed.

Lemma mod_proof m n (k : 'I_(m * n)) : (k %% n < n)%N.
Proof.
case: n k => [|n] k; first by case: k => k; rewrite muln0.
by rewrite ltn_pmod.
Qed.

Definition div_ord m n (k : 'I_(m * n)) : 'I_m := Ordinal (div_proof k).
Definition mod_ord m n (k : 'I_(m * n)) : 'I_n := Ordinal (mod_proof k).

(** [A.flatten()]: row-major, entry [(i, j)] goes to position [i*n + j]. *)
Definition flatten m n (A : 'M[R]_(m, n)) : 'cV[R]_(m * n) :=
  \col_k A (div_ord k) (mod_ord k).

(** [v.reshape((m, n))] *)
Definition reshape m n (v : 'cV[R]_(m * n)) : 'M[R]_(m, n) :=
  \matrix_(i, j) v (blk i j) 0.

(** [A[i, j] = g(A[i, j])] for integer indices [i], [j] (in range in every
    use below). *)
Definition mx_upd m n (A : 'M[R]_(m, n)) (i j : nat) (g : R -> R) : 'M[R]_(m, n) :=
  \matrix_(r, c) if (r == i :> nat) && (c == j :> nat) then g (A r c) else A r c.

(** [A[up:down, left:right] = B], the block [B] given by its entries. *)
Definition set_slice m n (A : 'M[R]_(m, n)) (up down left right : nat)
    (B : nat -> nat -> R) : 'M[R]_(m, n) :=
  \matrix_(r, c) if (up <= r < down)%N && (left <= c < right)%N
                 then B (r - up)%N (c - left)%N else A r c.

(** [np.linalg.inv] in exact arithmetic: the inverse of an invertible matrix.
    On a singular matrix the model raises; in double precision the library
    raises only when elimination meets a pivot that is exactly zero (see
    [Doubles.inv]), so nothing is drawn below from the raising branch. *)
Definition inv n (A : 'M[R]_n) : result 'M[R]_n :=
  if A \in unitmx then Ok (invmx A) else Raise LinAlgError.

(** [scipy.linalg.block_diag] applied to the [k] square blocks of [l], each
    of size [n]. *)
Definition block_diag k n (l : k.-tuple 'M[R]_n) : 'M[R]_(k * n) :=
  \matrix_(r, c) if div_ord r == div_ord c
                 then (tnth l (div_ord r)) (mod_ord r) (mod_ord c) else 0.

End Arrays.

(** ** Double precision

    The field of the session model has no rounding.  Two places of the code
    are decided by it: the test of the keep-list, which compares a height
    converted to metres and back to kilometres, and the accuracy of the
    least-squares estimate.  These lines are embedded here a second time,
    over IEEE binary64 numbers, the floats of Python and numpy. *)

Module Doubles.

Local Open Scope float_scope.

Definition vector := seq float.
Definition array2 := seq vector.

(** *** The keep-list *)

(** [self.heights = heights * 1e3] *)
Definition init_heights (heights : vector) : vector :=
  map (fun h => h * 1e3) heights.

(** [v not in l], by the equality of floats. *)
Definition not_in (v : float) (l : vector) : bool :=
  ~~ has (fun k => v =? k) l.

(** [A[:, i] = 0.0] *)
Definition zero_col (A : array2) (i : nat) : array2 :=
  map (fun row => set_nth 0 row i 0) A.

(** The loop over the layers at the end of
    [generateTurbulentZernikesKolmogorov], for a keep-list. *)
Definition keep_layers (heights keepOnly : vector) (A : array2) : array2 :=
  foldl (fun A i =>
           if not_in (nth 0 heights i / 1e3) keepOnly then zero_col A i
           else A)
        A (iota 0 (size heights)).

(** *** The unregularized least squares *)

Fixpoint transpose_cols (n : nat) (A : array2) : array2 :=
  match n with
  | O => [::]
  | S n' => map (head 0) A :: transpose_cols n' (map behead A)
  end.

(** [A.T] *)
Definition transpose (A : array2) : array2 :=
  transpose_cols (size (head [::] A)) A.

Definition dot (u v : vector) : float :=
  foldl (fun s p => s + p.1 * p.2) 0 (zip u v).

(** [A @ B] and [A @ x] *)
Definition matmul (A B : array2) : array2 :=
  map (fun r => map (dot r) (transpose B)) A.

Definition matvec (A : array2) (x : vector) : vector :=
  map (fun r => dot r x) A.

Definition identity (n : nat) : array2 :=
  map (fun i => map (fun j => if i == j then 1 else 0) (iota 0 n)) (iota 0 n).

(** The row whose leading entry has the largest magnitude. *)
Fixpoint pivot_from (best : nat) (bv : float) (i : nat) (rows : array2)
  : nat :=
  match rows with
  | [::] => best
  | r :: rows' =>
      if bv <? abs (head 0 r) then pivot_from i (abs (head 0 r)) i.+1 rows'
      else pivot_from best bv i.+1 rows'
  end.

Definition pivot (rows : array2) : nat :=
  pivot_from 0%N (abs (head 0 (head [::] rows))) 1%N (behead rows).

(** [r - l * p], entry by entry. *)
Definition axpy (l : float) (p r : vector) : vector :=
  map (fun q => q.1 - l * q.2) (zip r p).

(** Elimination with row interchanges on the rows of [A | I]; the rows
    returned are those of the upper triangle, each from its diagonal entry
    on.  A pivot equal to zero is the singular matrix of [LinAlgError]. *)
Fixpoint eliminate (n : nat) (rows : array2) : result array2 :=
  match n with
  | O => Ok [::]
  | S n' =>
      let p := pivot rows in
      let piv := nth [::] rows p in
      if head 0 piv =? 0 then Raise LinAlgError
      else
        let rest := behead (set_nth [::] rows p (head [::] rows)) in
        let reduced :=
          map (fun r => axpy (head 0 r / head 0 piv) (behead piv) (behead r))
              rest in
        U <- eliminate n' reduced ;;
        Ok (piv :: U)
  end.

Fixpoint back_substitute (U : array2) : array2 :=
  match U with
  | [::] => [::]
  | r :: U' =>
      let X := back_substitute U' in
      let m := (size U').+1 in
      let u := take m r in
      let b := drop m r in
      let acc := foldl (fun acc q => axpy q.1 q.2 acc) b (zip (behead u) X) in
      map (fun v => v / head 0 u) acc :: X
  end.

(** [np.linalg.inv] solves [A X = I] by the factorization with partial
    pivoting of the linear algebra library it calls; the library is not part
    of the sources, and its order of operations may differ from this one in
    the last bits of a result. *)
Definition inv (A : array2) : result array2 :=
  let n := size A in
  let rows := map (fun q => q.1 ++ q.2) (zip A (identity n)) in
  U <- eliminate n rows ;;
  Ok (back_substitute U).

(** [generateWFS]: [self.MStack @ self.aStack['Original']] *)
Definition generateWFS (MStack : array2) (orig : vector) : vector :=
  matvec MStack orig.

(** [solveSVD] with [regularize=False]:
    [AInv = np.linalg.inv(self.MStack.T @ self.MStack)] and
    [x = AInv @ self.MStack.T @ b]. *)
Definition solveSVD (MStack : array2) (b : vector) : result vector :=
  AInv <- inv (matmul (transpose MStack) MStack) ;;
  Ok (matvec (matmul AInv (transpose MStack)) b).

(** *** Inputs *)

(** A height, in km, that the conversion to metres and back does not
    return. *)
Definition layer_km : float := 21.455680991172585.

(** One star, two modes, one layer: a stacked matrix of determinant
    [6.00001 - 6]. *)
Definition sample_MStack : array2 := [:: [:: 1; 2]; [:: 3; 6.00001]].

End Doubles.

(** ** The tomography session *)

Section Tomography.

(** The scalars.  Rounding is not modelled here: a float is an element of an
    ordered field, and what is proved over it holds of the code in exact
    arithmetic ([Doubles] has the lines where rounding decides). *)
Variable R : numFieldType.

(** [np.pi], [np.sqrt], [scipy.special.gamma], the power operator and the
    spectral norm [np.linalg.norm(., 2)].  They are total here; the power of
    two Python floats can also raise ([OverflowError], [ZeroDivisionError]
    on a zero base with a negative exponent), so that a statement that a
    generator returns is a statement about inputs on which its powers do. *)
Variable pi : R.
Variables sqrt gamma : R -> R.
Variable pow : R -> R -> R.
Variable norm2 : forall m n : nat, 'M[R]_(m, n) -> R.

(** [wavefront.nollIndices(j)]: radial degree and azimuthal frequency of the
    Zernike mode of Noll index [j]; the module is imported, not defined here. *)
Variable nollIndices : nat -> int * int.

(** The shape of the problem: [self.nStars], [self.nZernike] and
    [self.nHeight = len(heights)]. *)
Variables nStars nZernike nHeight : nat.

(** [np.random.multivariate_normal(mean, cov, size=nHeight)], drawing from the
    state of the global generator.  The draw is total here; numpy's can
    refuse its arguments. *)
Variable rng : Type.
Variable multivariate_normal :
  rng -> 'rV[R]_nZernike -> 'M[R]_nZernike -> 'M[R]_(nHeight, nZernike) * rng.

(** A float literal [num / den]. *)
Definition flt (num den : nat) : R := num%:R / den%:R.

(** The 4-D array [M[mode, mode, height, star]], by its entries. *)
Definition tensor4 := nat -> nat -> nat -> nat -> R.

Record tomography : Type := Tomography {
  fov : R;
  heights : nHeight.-tuple R;
  DTel : R;
  verbose : bool;
  MComputed : bool;
  numericalProjection : bool;
  addPiston : bool;
  noll0 : nat;
  DMetapupil : nHeight.-tuple R;
  t : 'M[R]_(nHeight, nStars);
  beta : 'M[R]_(nHeight, nStars);
  angle : 'M[R]_(nHeight, nStars);
  M : option tensor4;
  MStack : option 'M[R]_(nStars * nZernike, nHeight * nZernike);
  covariance : option 'M[R]_nZernike;
  a : dict 'M[R]_(nZernike, nHeight);
  aStack : dict 'cV[R]_(nHeight * nZernike);
  mu : option R;
  MStackStar : option 'M[R]_(nHeight * nZernike, nStars * nZernike)
}.

Definition set_MComputed (self : tomography) (v : bool) : tomography :=
  Tomography (fov self) (heights self) (DTel self) (verbose self) v
    (numericalProjection self) (addPiston self) (noll0 self) (DMetapupil self)
    (t self) (beta self) (angle self) (M self) (MStack self) (covariance self)
    (a self) (aStack self) (mu self) (MStackStar self).

Definition set_M (self : tomography) (v : tensor4) : tomography :=
  Tomography (fov self) (heights self) (DTel self) (verbose self)
    (MComputed self) (numericalProjection self) (addPiston self) (noll0 self)
    (DMetapupil self) (t self) (beta self) (angle self) (Some v) (MStack self)
    (covariance self) (a self) (aStack self) (mu self) (MStackStar self).

Definition set_MStack (self : tomography)
    (v : 'M[R]_(nStars * nZernike, nHeight * nZernike)) : tomography :=
  Tomography (fov self) (heights self) (DTel self) (verbose self)
    (MComputed self) (numericalProjection self) (addPiston self) (noll0 self)
    (DMetapupil self) (t self) (beta self) (angle self) (M self) (Some v)
    (covariance self) (a self) (aStack self) (mu self) (MStackStar self).

Definition set_covariance (self : tomography) (v : 'M[R]_nZernike)
  : tomography :=
  Tomography (fov self) (heights self) (DTel self) (verbose self)
    (MComputed self) (numericalProjection self) (addPiston self) (noll0 self)
    (DMetapupil self) (t self) (beta self) (angle self) (M self) (MStack self)
    (Some v) (a self) (aStack self) (mu self) (MStackStar self).

Definition set_a (self : tomography) (v : dict 'M[R]_(nZernike, nHeight))
  : tomography :=
  Tomography (fov self) (heights self) (DTel self) (verbose self)
    (MComputed self) (numericalProjection self) (addPiston self) (noll0 self)
    (DMetapupil self) (t self) (beta self) (angle self) (M self) (MStack self)
    (covariance self) v (aStack self) (mu self) (MStackStar self).

Definition set_aStack (self : tomography)
    (v : dict 'cV[R]_(nHeight * nZernike)) : tomography :=
  Tomography (fov self) (heights self) (DTel self) (verbose self)
    (MComputed self) (numericalProjection self) (addPiston self) (noll0 self)
    (DMetapupil self) (t self) (beta self) (angle self) (M self) (MStack self)
    (covariance self) (a self) v (mu self) (MStackStar self).

Definition set_mu (self : tomography) (v : R) : tomography :=
  Tomography (fov self) (heights self) (DTel self) (verbose self)
    (MComputed self) (numericalProjection self) (addPiston self) (noll0 self)
    (DMetapupil self) (t self) (beta self) (angle self) (M self) (MStack self)
    (covariance self) (a self) (aStack self) (Some v) (MStackStar self).

Definition set_MStackStar (self : tomography)
    (v : 'M[R]_(nHeight * nZernike, nStars * nZernike)) : tomography :=
  Tomography (fov self) (heights self) (DTel self) (verbose self)
    (MComputed self) (numericalProjection self) (addPiston self) (noll0 self)
    (DMetapupil self) (t self) (beta self) (angle self) (M self) (MStack self)
    (covariance self) (a self) (aStack self) (mu self) (Some v).

(** *** Turbulence statistics *)

(** [even(x)]: [x % 2 == 0] on Python integers. *)
Definition even (x : int) : bool := (x %% 2)%Z == 0.

(** Division of two Python floats: a zero divisor raises.  The divisions whose
    operands are numpy scalars never raise and are the field's. *)
Definition pydiv (x y : R) : result R :=
  if y == 0 then Raise ZeroDivisionError else Ok (x / y).

Definition half : R := flt 5 10.

(** The innermost branch of [generateTurbulentZernikesKolmogorov]: the value
    stored in [covariance[i, j]], with [q] the quotient [self.DTel / r0]. *)
Definition kolmogorov_entry (q : R) (ni mi nj : int) : R :=
  let phase := pow (-1) (half * (ni + nj - 2 * mi)%:~R) in
  let t1 := sqrt ((ni + 1) * (nj + 1))%:~R * pow pi (8%:R / 3%:R)
            * flt 72 10000 * pow q (5%:R / 3%:R) in
  let t2 := gamma (14%:R / 3%:R) * gamma (half * ((ni + nj)%:~R - 5%:R / 3%:R)) in
  let t3 := gamma (half * ((ni - nj)%:~R + 17%:R / 3%:R))
            * gamma (half * ((nj - ni)%:~R + 17%:R / 3%:R))
            * gamma (half * ((ni + nj)%:~R + 23%:R / 3%:R)) in
  phase * t1 * t2 / t3.

Definition kolmogorov_cell (D r0 : R) (ni mi nj : int) : result R :=
  q <- pydiv D r0 ;;
  Ok (kolmogorov_entry q ni mi nj).

Definition kolmogorov_covariance (self : tomography) (r0 : R)
  : result 'M[R]_nZernike :=
  forM (range nZernike) (fun i cov =>
    let: (ni, mi) := nollIndices (i + noll0 self) in
    forM (range nZernike) (fun j cov =>
      let: (nj, mj) := nollIndices (j + noll0 self) in
      if even (i%:Z - j%:Z) then
        if mi == mj then
          v <- kolmogorov_cell (DTel self) r0 ni mi nj ;;
          Ok (mx_upd cov i j (fun _ => v))
        else Ok cov
      else Ok cov) cov)
    (const_mx 0).

(** [A[:, i] = 0.0] *)
Definition zero_col m n (A : 'M[R]_(m, n)) (i : nat) : 'M[R]_(m, n) :=
  \matrix_(p, c) if c == i :> nat then 0 else A p c.

(** The end of both generators: the draw, the optional keep-list, and the
    flattened copy.  The division [self.heights[i]/1e3] is the field's here,
    so that it undoes the multiplication of the constructor;
    [Doubles.keep_layers] has the test on floats. *)
Definition keep_layers (self : tomography) (keepOnly : option (seq R))
    (a0 : 'M[R]_(nZernike, nHeight)) : 'M[R]_(nZernike, nHeight) :=
  if keepOnly is Some keep then
    foldl (fun a1 i =>
             if nth 0 (heights self) i / 1000%:R \notin keep
             then zero_col a1 i else a1)
          a0 (range nHeight)
  else a0.

Definition generateTurbulentZernikesKolmogorov (self : tomography) (g : rng)
    (r0 : R) (keepOnly : option (seq R)) : result (tomography * rng) :=
  cov <- kolmogorov_covariance self r0 ;;
  let self := set_covariance self cov in
  let: (sample, g) := multivariate_normal g (const_mx 0) cov in
  let orig := keep_layers self keepOnly sample^T in
  let self := set_a self (dict_set (a self) "Original" orig) in
  let self := set_aStack self (dict_set (aStack self) "Original"
                                 (flatten orig^T)) in
  Ok (self, g).

(** The factors computed before the series of von Karman: [phase] and [t1],
    with [q] the quotient [self.DTel / r0]. *)
Definition vonKarman_phase (ni mi nj : int) : R :=
  pow (-1) (half * (ni + nj - 2 * mi)%:~R).

Definition vonKarman_t1 (q : R) (ni nj : int) : R :=
  sqrt ((ni + 1) * (nj + 1))%:~R * pow pi (8%:R / 3%:R)
  * flt 116 100 * pow q (5%:R / 3%:R).

(** The factors of one term of the truncated von Karman series, named as the
    local variables of the loop over [k]; [x] is the quotient
    [np.pi*self.DTel / L0]. *)
Definition vonKarman_phase2 (x : R) (ni nj : int) (k : nat) : R :=
  pow (-1) k%:R / (k`!)%:R
  * pow x (2%:R * k%:R + ni%:~R + nj%:~R - 5%:R / 3%:R).

Definition vonKarman_t2 (ni nj : int) (k : nat) : R :=
  gamma (k%:R + half * (3 + ni + nj)%:~R)
  * gamma (k%:R + 2%:R + half * (ni + nj)%:~R)
  * gamma (k%:R + 1 + flt 2 10 * (ni + nj)%:~R)
  * gamma (5%:R / 6%:R - k%:R - half * (ni + nj)%:~R).

Definition vonKarman_t3 (ni nj : int) (k : nat) : R :=
  gamma (3%:R + k%:R + ni%:~R + nj%:~R) * gamma (2%:R + k%:R + ni%:~R)
  * gamma (2%:R + k%:R + nj%:~R).

Definition vonKarman_phase3 (x : R) (k : nat) : R := pow x (2%:R * k%:R).

Definition vonKarman_t4 (ni nj : int) (k : nat) : R :=
  gamma (half * (ni + nj)%:~R - 5%:R / 6%:R - k%:R)
  * gamma (k%:R + 7%:R / 3%:R) * gamma (k%:R + 17%:R / 6%:R)
  * gamma (k%:R + 11%:R / 6%:R).

Definition vonKarman_t5 (ni nj : int) (k : nat) : R :=
  gamma (half * (ni + nj)%:~R + 23%:R / 6%:R + k%:R)
  * gamma (half * (ni - nj)%:~R + 17%:R / 6%:R + k%:R)
  * gamma (half * (ni - nj)%:~R + 17%:R / 6%:R + k%:R).

(** The term added to [covariance[i, j]] at step [k]. *)
Definition vonKarman_term (x phase t1 : R) (ni nj : int) (k : nat) : R :=
  let phase2 := vonKarman_phase2 x ni nj k in
  let t2 := vonKarman_t2 ni nj k in
  let t3 := vonKarman_t3 ni nj k in
  let phase3 := vonKarman_phase3 x k in
  let t4 := vonKarman_t4 ni nj k in
  let t5 := vonKarman_t5 ni nj k in
  phase * t1 * (phase2 * t2 / t3 + phase3 * t4 / t5).

Definition vonKarman_cell (D r0 L0 : R) (ni mi nj : int) (i j : nat)
    (cov : 'M[R]_nZernike) : result 'M[R]_nZernike :=
  let phase := vonKarman_phase ni mi nj in
  q <- pydiv D r0 ;;
  let t1 := vonKarman_t1 q ni nj in
  forM (range 50) (fun k cov =>
    x <- pydiv (pi * D) L0 ;;
    Ok (mx_upd cov i j (fun c => c + vonKarman_term x phase t1 ni nj k))) cov.

Definition vonKarman_covariance (self : tomography) (r0 L0 : R)
  : result 'M[R]_nZernike :=
  forM (range nZernike) (fun i cov =>
    let: (ni, mi) := nollIndices (i + noll0 self) in
    forM (range nZernike) (fun j cov =>
      let: (nj, mj) := nollIndices (j + noll0 self) in
      if even (i%:Z - j%:Z) then
        if mi == mj then vonKarman_cell (DTel self) r0 L0 ni mi nj i j cov
        else Ok cov
      else Ok cov) cov)
    (const_mx 0).

Definition generateTurbulentZernikesVonKarman (self : tomography) (g : rng)
    (r0 L0 : R) : result (tomography * rng) :=
  cov <- vonKarman_covariance self r0 L0 ;;
  let self := set_covariance self cov in
  let: (sample, g) := multivariate_normal g (const_mx 0) cov in
  let orig := sample^T in
  let self := set_a self (dict_set (a self) "Original" orig) in
  let self := set_aStack self (dict_set (aStack self) "Original"
                                 (flatten orig^T)) in
  Ok (self, g).

(** *** The stacked system matrix *)

Definition stackProjection (self : tomography) : result tomography :=
  M <- getattr (M self) ;;
  let MStack :=
    foldl (fun MStack i =>
      foldl (fun MStack j =>
        let left := (i * nZernike)%N in
        let right := (i.+1 * nZernike)%N in
        let up := (j * nZernike)%N in
        let down := (j.+1 * nZernike)%N in
        set_slice MStack up down left right (fun p q => M p q i j))
      MStack (range nStars))
    (const_mx 0) (range nHeight) in
  Ok (set_MStack self MStack).

(** *** The forward operator *)

Definition generateWFS (self : tomography) : result 'cV[R]_(nStars * nZernike) :=
  MStack <- getattr (MStack self) ;;
  orig <- dict_item (aStack self) "Original" ;;
  Ok (MStack *m orig).

(** *** Least squares *)

Definition solveSVD (self : tomography) (b : 'cV[R]_(nStars * nZernike))
    (regularize : bool) : result tomography :=
  AInv <-
    (if regularize then
       covariance <- getattr (covariance self) ;;
       invCov <- inv covariance ;;
       let matrixList := [tuple invCov | i < nHeight] in
       let cov := block_diag matrixList in
       MStack <- getattr (MStack self) ;;
       inv (MStack^T *m MStack + cov^T *m cov)
     else
       MStack <- getattr (MStack self) ;;
       inv (MStack^T *m MStack)) ;;
  MStack <- getattr (MStack self) ;;
  let x := AInv *m MStack^T *m b in
  let self := set_aStack self (dict_set (aStack self) "SVD" x) in
  x' <- dict_item (aStack self) "SVD" ;;
  Ok (set_a self (dict_set (a self) "SVD" (reshape x')^T)).

(** *** The sparse solver *)

(** [pyiacsun.sparse.proxes.prox_l1] and the solver [pyiacsun.sparse.fasta]
    are imported; the solver is called with the arguments below and its
    [optimize()] returns the final iterate. *)
Variable prox_l1 : forall n : nat, 'cV[R]_n -> R -> 'cV[R]_n.

Record fasta_args : Type := FastaArgs {
  fa_A : 'cV[R]_(nHeight * nZernike) -> 'cV[R]_(nStars * nZernike);
  fa_At : 'cV[R]_(nStars * nZernike) -> 'cV[R]_(nHeight * nZernike);
  fa_f : 'cV[R]_(nStars * nZernike) -> R;
  fa_gradf : 'cV[R]_(nStars * nZernike) -> 'cV[R]_(nStars * nZernike);
  fa_g : 'cV[R]_(nHeight * nZernike) -> R;
  fa_proxg : 'cV[R]_(nHeight * nZernike) -> R -> 'cV[R]_(nHeight * nZernike);
  fa_x0 : 'cV[R]_(nHeight * nZernike);
  fa_tau : R;
  fa_verbose : bool;
  fa_tol : R;
  fa_maxIter : nat;
  fa_accelerate : bool;
  fa_backtrack : bool;
  fa_adaptive : bool
}.

Variable fasta_optimize : fasta_args -> 'cV[R]_(nHeight * nZernike).

(** [np.linalg.norm(x, 1)] and [np.linalg.norm(x, 2)] of a vector. *)
Definition norm_1 n (x : 'cV[R]_n) : R := \sum_i `|x i 0|.
Definition norm_2 n (x : 'cV[R]_n) : R := sqrt (\sum_i (x i 0) ^+ 2).

Definition _g (mu : R) (x : 'cV[R]_(nHeight * nZernike)) : R :=
  mu * norm_1 x.

Definition _proxg (mu : R) (x : 'cV[R]_(nHeight * nZernike)) (t : R)
  : 'cV[R]_(nHeight * nZernike) :=
  prox_l1 x (t * mu).

(** The arguments of the call [ps.sparse.fasta(A, At, f, gradf, self._g,
    self._proxg, values, tau=1.32/L, ...)] for the weight [mu]. *)
Definition fasta_call (MStack : 'M[R]_(nStars * nZernike, nHeight * nZernike))
    (MStackStar : 'M[R]_(nHeight * nZernike, nStars * nZernike))
    (b : 'cV[R]_(nStars * nZernike)) (L mu : R)
    (values : 'cV[R]_(nHeight * nZernike)) : fasta_args :=
  FastaArgs (fun x => MStack *m x) (fun x => MStackStar *m x)
            (fun x => half * norm_2 (x - b) ^+ 2) (fun x => x - b)
            (_g mu) (_proxg mu) values
            (flt 132 100 / L) true (10%:R ^- 12) (6 * 10 ^ 4) true false false.

Definition solveFASTA (self : tomography) (b : 'cV[R]_(nStars * nZernike))
  : result tomography :=
  MStack <- getattr (MStack self) ;;
  let L := norm2 MStack ^+ 2 in
  let self := set_MStackStar self MStack^T in
  let mus := [:: 10%:R ^- 5] in
  orig <- dict_item (aStack self) "Original" ;;
  let values : 'cV[R]_(nHeight * nZernike) := const_mx 0 in
  let: (self, values) :=
    foldl (fun sv mu =>
             let self := set_mu sv.1 mu in
             (self, fasta_optimize (fasta_call MStack MStack^T b L mu sv.2)))
          (self, values) mus in
  let self := set_aStack self (dict_set (aStack self) "L1" values) in
  l1 <- dict_item (aStack self) "L1" ;;
  Ok (set_a self (dict_set (a self) "L1" (reshape l1)^T)).

(** *** Construction and the store of projection tensors *)

(** The geometry resolver of the imported module [projection]:
    [zernikeProjectionMatrixNumerical(nZernike, beta, t, angle, ...)] and
    [zernikeProjectionMatrix(nZernike, beta, t, angle, ...)], by the entries
    of the square matrix they return. *)
Variables zernikeProjectionMatrixNumerical zernikeProjectionMatrix :
  nat -> R -> R -> R -> nat -> nat -> R.

(** One file [matrices/transformationMatrices_*.npz]: the arrays saved by
    [np.savez] in the order [M, heights, nStars, nZernike, fov, DTel].  The
    folder [matrices/] is the list of its files, which exists: a missing
    folder, on which [np.savez] fails, is not modelled. *)
Record npz : Type := Npz {
  arr_0 : tensor4;
  arr_1 : seq R;
  arr_2 : nat;
  arr_3 : nat;
  arr_4 : R;
  arr_5 : R
}.

(** [A[i, j]] for integer indices. *)
Definition mx_get m n (A : 'M[R]_(m, n)) (i j : nat) : R :=
  if insub i is Some i' then
    if insub j is Some j' then A i' j' else 0
  else 0.

(** [A[:, i]] and [A[:, i] = v] for an integer index. *)
Definition col_at m n (A : 'M[R]_(m, n)) (i : nat) : 'cV[R]_m :=
  \col_h mx_get A h i.

Definition set_col m n (A : 'M[R]_(m, n)) (i : nat) (v : 'cV[R]_m)
  : 'M[R]_(m, n) :=
  \matrix_(h, c) if c == i :> nat then v h 0 else A h c.

(** [_proxgHeight]: the proximal operator applied to the coefficients of one
    mode at a time, across the heights. *)
Definition _proxgHeight (mu : R) (x : 'cV[R]_(nHeight * nZernike)) (t : R)
  : 'cV[R]_(nHeight * nZernike) :=
  let coef : 'M[R]_(nHeight, nZernike) := reshape x in
  let coefOut :=
    foldl (fun coefOut i =>
             set_col coefOut i (prox_l1 (col_at coef i) (t * mu)))
          coef (range nZernike) in
  flatten coefOut.

(** [ind = np.where(np.in1d(heights, self.heights))[0]]: the positions of the
    stored heights that are heights of the session. *)
Definition cached_indices (self : tomography) (out : npz) : seq nat :=
  filter (fun k => nth 0 (arr_1 out) k \in heights self)
         (range (size (arr_1 out))).

(** The two tests of [projectionExists] on one file. *)
Definition covers (self : tomography) (out : npz) : bool :=
  (size (cached_indices self out) == nHeight)
  && [&& arr_2 out == nStars, (nZernike <= arr_3 out)%N,
         arr_4 out == fov self & arr_5 out == DTel self].

(** [out['arr_0'][0:self.nZernike, 0:self.nZernike, ind, :]] *)
Definition cached_slice (self : tomography) (out : npz) : tensor4 :=
  fun p q h s => arr_0 out p q (nth 0%N (cached_indices self out) h) s.

(** [projectionExists]: the first file, in the order of [glob.glob], whose
    record covers the session's configuration.  The stacking is in the branch
    of [self.verbose], with the messages. *)
Fixpoint projectionExists (self : tomography) (files : seq npz)
  : result (tomography * bool) :=
  match files with
  | [::] => Ok (self, false)
  | out :: files' =>
      if covers self out then
        let self := set_M self (cached_slice self out) in
        if verbose self then
          let self := set_MComputed self true in
          self <- stackProjection self ;;
          Ok (self, true)
        else Ok (self, true)
      else projectionExists self files'
  end.

Definition computeProjection (self : tomography) (files : seq npz)
  : result (tomography * seq npz) :=
  if ~~ MComputed self then
    let M :=
      foldl (fun M i =>
        foldl (fun M j =>
          let B :=
            if numericalProjection self then
              zernikeProjectionMatrixNumerical nZernike
                (mx_get (beta self) i j) (mx_get (t self) i j)
                (mx_get (angle self) i j)
            else
              zernikeProjectionMatrix nZernike
                (mx_get (beta self) i j) (mx_get (t self) i j)
                (mx_get (angle self) i j) in
          (fun p q h s : nat => if (h == i) && (s == j) then B p q
                                else M p q h s))
        M (range nStars))
      (fun _ _ _ _ => 0) (range nHeight) in
    let self := set_M self M in
    let files := rcons files (Npz M (heights self) nStars nZernike
                                  (fov self) (DTel self)) in
    self <- stackProjection self ;;
    Ok (self, files)
  else Ok (self, files).

(** [tomography(nStars, nZernike, fov, heights, DTel, verbose,
    numericalProjection, addPiston)]: the attributes set before the store of
    projection tensors is consulted. *)
Definition init_state (fov_ : R) (heights_ : nHeight.-tuple R) (DTel_ : R)
    (verbose_ numericalProjection_ addPiston_ : bool) : tomography :=
  let fov := fov_ / (2062 * 100 + 65)%:R in
  let heights := [tuple of map (fun h => h * 1000%:R) heights_] in
  let noll0 := if ~~ addPiston_ then 2%N else 1%N in
  let DMetapupil := [tuple of map (fun h => DTel_ + h * fov) heights] in
  let t := \matrix_(i, j) (tnth heights i * fov / tnth DMetapupil i) in
  let beta := \matrix_(i, j) (tnth DMetapupil i / DTel_) in
  let angle := \matrix_(i, j) ((j : nat)%:R * 2%:R * pi / nStars%:R) in
  Tomography fov heights DTel_ verbose_ false numericalProjection_ addPiston_
             noll0 DMetapupil t beta angle None None None [::] [::] None None.

(** The constructor, run against the files of [matrices/]; it returns the
    session and the files after it. *)
Definition init (fov_ : R) (heights_ : nHeight.-tuple R) (DTel_ : R)
    (verbose_ numericalProjection_ addPiston_ : bool) (files : seq npz)
  : result (tomography * seq npz) :=
  let self := init_state fov_ heights_ DTel_ verbose_ numericalProjection_
                         addPiston_ in
  sf <- projectionExists self files ;;
  let: (self, found) := sf in
  if found == false then computeProjection self files
  else Ok (self, files).

(** *** Closed form of the stacking loops *)

Definition stacked (M : tensor4)
  : 'M[R]_(nStars * nZernike, nHeight * nZernike) :=
  \matrix_(r, c) M (r %% nZernike)%N (c %% nZernike)%N
                   (c %/ nZernike)%N (r %/ nZernike)%N.

(** *** Closed forms of the covariance loops *)

(** The test that guards the assignment of [covariance[i, j]]. *)
Definition selected (self : tomography) (i j : nat) : bool :=
  even (i%:Z - j%:Z)
  && ((nollIndices (i + noll0 self)).2 == (nollIndices (j + noll0 self)).2).

Definition kolmogorov_matrix (self : tomography) (r0 : R) : 'M[R]_nZernike :=
  \matrix_(i, j)
    if selected self i j then
      kolmogorov_entry (DTel self / r0) (nollIndices (i + noll0 self)).1
        (nollIndices (i + noll0 self)).2 (nollIndices (j + noll0 self)).1
    else 0.

Definition vonKarman_series (D r0 L0 : R) (ni mi nj : int) : R :=
  \sum_(0 <= k < 50)
    vonKarman_term (pi * D / L0) (vonKarman_phase ni mi nj)
      (vonKarman_t1 (D / r0) ni nj) ni nj k.

Definition vonKarman_matrix (self : tomography) (r0 L0 : R) : 'M[R]_nZernike :=
  \matrix_(i, j)
    if selected self i j then
      vonKarman_series (DTel self) r0 L0 (nollIndices (i + noll0 self)).1
        (nollIndices (i + noll0 self)).2 (nollIndices (j + noll0 self)).1
    else 0.

(** *** Statements about a generator call *)

(** The call returns and leaves in [self.covariance] a matrix satisfying [P]. *)
Definition builds (res : result (tomography * rng))
    (P : 'M[R]_nZernike -> Prop) : Prop :=
  exists self' g' C,
    [/\ res = Ok (self', g'), covariance self' = Some C & P C].

(** Entries of modes with different azimuthal frequencies, or with an odd
    difference of indices, are zero. *)
Definition selection_rule (self : tomography) (C : 'M[R]_nZernike) : Prop :=
  forall i j : 'I_nZernike,
    ((nollIndices (i + noll0 self)).2 != (nollIndices (j + noll0 self)).2)
    || ~~ even (i%:Z - j%:Z) ->
    C i j = 0.

(** What the transposed entry of the von Karman matrix misses: [t5] is built
    from [ni - nj] twice, so that exchanging the two modes changes it. *)
Definition vonKarman_asymmetry (D r0 L0 : R) (ni mi nj : int) : R :=
  vonKarman_phase ni mi nj * vonKarman_t1 (D / r0) ni nj
  * \sum_(0 <= k < 50)
      vonKarman_phase3 (pi * D / L0) k * vonKarman_t4 ni nj k
      * ((vonKarman_t5 ni nj k)^-1 - (vonKarman_t5 nj ni k)^-1).

(** *** The frame of a solve call *)

(** Between [self] and [self'] the projection tensor, the stacked matrix and
    the covariance are the same, and so is every entry of [self.a] and
    [self.aStack] under a key other than [key]. *)
Definition frame_except (key : string) (self self' : tomography) : Prop :=
  [/\ MStack self' = MStack self,
      covariance self' = covariance self,
      M self' = M self,
      forall k, String.eqb k key = false ->
        dict_get (a self') k = dict_get (a self) k
    & forall k, String.eqb k key = false ->
        dict_get (aStack self') k = dict_get (aStack self) k].

(** *** The frame of a solve call, attribute by attribute *)

(** [self'] is [self] with new dictionaries [a] and [aStack]: every other
    attribute (configuration, geometry, projection tensor, stacked matrix,
    covariance, [mu], [MStackStar]) is the one of [self]. *)
Definition estimate_only (self self' : tomography) : Prop :=
  self' = set_a (set_aStack self (aStack self')) (a self').

(** The entries of the two dictionaries under a key other than [key] are
    those of [self]. *)
Definition keeps_other_entries (key : string) (self self' : tomography)
  : Prop :=
  forall k, String.eqb k key = false ->
    dict_get (a self') k = dict_get (a self) k
    /\ dict_get (aStack self') k = dict_get (aStack self) k.

(** *** The step size and the Lipschitz constant *)

(** The square of the 2-norm of a vector. *)
Definition sq_norm n (x : 'cV[R]_n) : R := \sum_i (x i 0) ^+ 2.

(** [s] bounds the gain of [A] in the 2-norm, [|A x| <= s |x|], written on
    the squares.  The spectral norm [np.linalg.norm(A, 2)], the largest
    singular value of [A], is the least such [s], for [A] and for [A.T]. *)
Definition spectral_bound m n (A : 'M[R]_(m, n)) (s : R) : Prop :=
  0 <= s /\ forall x : 'cV[R]_n, sq_norm (A *m x) <= s ^+ 2 * sq_norm x.

(** The gradient of the data term [x -> f(A x)] as the solver composes it
    from the operators it is given: [At(gradf(A x))]. *)
Definition data_gradient (call : fasta_args)
    (x : 'cV[R]_(nHeight * nZernike)) : 'cV[R]_(nHeight * nZernike) :=
  fa_At call (fa_gradf call (fa_A call x)).

(** *** Statements about the proximal operator and the dictionaries *)

(** The proximal operator acts on each entry of its argument alone. *)
Definition elementwise (prox : forall n : nat, 'cV[R]_n -> R -> 'cV[R]_n)
  : Prop :=
  exists s : R -> R -> R,
    forall (n : nat) (x : 'cV[R]_n) (theta : R) (i : 'I_n),
      prox n x theta i 0 = s (x i 0) theta.

(** Every array of [self.aStack] is the flattened transpose of the array of
    [self.a] under the same key, and the two dictionaries have the same
    keys. *)
Definition consistent (self : tomography) : Prop :=
  forall k, dict_get (aStack self) k
            = omap (fun A : 'M[R]_(nZernike, nHeight) => flatten A^T)
                   (dict_get (a self) k).

(** *** Closed form of the loops of [computeProjection] *)

(** The block that [computeProjection] asks of the geometry resolver for the
    layer [i] and the star [j]. *)
Definition resolved (self : tomography) (i j : nat) : nat -> nat -> R :=
  if numericalProjection self then
    zernikeProjectionMatrixNumerical nZernike
      (mx_get (beta self) i j) (mx_get (t self) i j) (mx_get (angle self) i j)
  else
    zernikeProjectionMatrix nZernike
      (mx_get (beta self) i j) (mx_get (t self) i j) (mx_get (angle self) i j).

(** The tensor left by the loops of [computeProjection]. *)
Definition computed (self : tomography) : tensor4 :=
  foldl (fun M i =>
    foldl (fun M j =>
      let B :=
        if numericalProjection self then
          zernikeProjectionMatrixNumerical nZernike
            (mx_get (beta self) i j) (mx_get (t self) i j)
            (mx_get (angle self) i j)
        else
          zernikeProjectionMatrix nZernike
            (mx_get (beta self) i j) (mx_get (t self) i j)
            (mx_get (angle self) i j) in
      (fun p q h s : nat => if (h == i) && (s == j) then B p q
                            else M p q h s))
    M (range nStars))
  (fun _ _ _ _ => 0) (range nHeight).

(** * Properties *)

(** ** Dictionaries *)

Section DictTheory.

Variable V : Type.
Implicit Types (d : dict V) (k : string) (v : V).

Lemma dict_get_set_same d k v : dict_get (dict_set d k v) k = Some v.
Proof.
elim: d => [|[k' v'] d IH] /=; first by rewrite String.eqb_refl.
case E: (String.eqb k k') => /=; first by rewrite E.
by rewrite E.
Qed.

Lemma dict_get_set_other d k k' v :
  String.eqb k' k = false -> dict_get (dict_set d k v) k' = dict_get d k'.
Proof.
move=> Hk; elim: d => [|[k0 v0] d IH] /=; first by rewrite Hk.
case E: (String.eqb k k0) => /=; last by rewrite IH.
move/String.eqb_spec: E => E; subst k0.
by rewrite Hk.
Qed.

End DictTheory.

(** ** Flattening and reshaping *)

Section ArrayTheory.

Variable F : fieldType.

Lemma div_blk m n (i : 'I_m) (p : 'I_n) : div_ord (blk i p) = i.
Proof.
apply: val_inj => /=.
by rewrite divnMDl ?divn_small ?addn0 //; case: n p => [[]|].
Qed.

Lemma mod_blk m n (i : 'I_m) (p : 'I_n) : mod_ord (blk i p) = p.
Proof.
apply: val_inj => /=.
by rewrite modnMDl modn_small.
Qed.

Lemma blk_div_mod m n (k : 'I_(m * n)) : blk (div_ord k) (mod_ord k) = k.
Proof. by apply: val_inj => /=; rewrite -divn_eq. Qed.

Lemma flatten_blk m n (A : 'M[F]_(m, n)) i p : flatten A (blk i p) 0 = A i p.
Proof. by rewrite mxE div_blk mod_blk. Qed.

Lemma reshape_flatten m n (A : 'M[F]_(m, n)) : reshape (flatten A) = A.
Proof. by apply/matrixP => i j; rewrite mxE flatten_blk. Qed.

Lemma flatten_reshape m n (v : 'cV[F]_(m * n)) : flatten (reshape v) = v.
Proof.
by apply/colP => k; rewrite mxE mxE blk_div_mod.
Qed.

End ArrayTheory.

(** ** Loops over the cells of a matrix *)

Section LoopTheory.

Lemma eq_forM (S : Type) (s : seq nat) (f g : nat -> S -> result S) (st : S) :
  (forall i x, i \in s -> f i x = g i x) -> forM s f st = forM s g st.
Proof.
elim: s st => [|i s IH] st //= Hfg.
rewrite Hfg ?mem_head //; case: (g i st) => //= st'.
by apply: IH => k x Hk; apply: Hfg; rewrite in_cons Hk orbT.
Qed.

Variables (m n : nat).
Implicit Type A : 'M[R]_(m, n).

(** Fifty additions into one cell add the sum of the terms. *)
Lemma forM_accumulate (i j : nat) (v : nat -> R) (lo len : nat) A :
  forM (iota lo len) (fun k cov => Ok (mx_upd cov i j (fun c => c + v k))) A
  = Ok (mx_upd A i j (fun c => c + \sum_(lo <= k < lo + len) v k)).
Proof.
elim: len lo A => [|len IH] lo A /=.
  congr Ok; apply/matrixP => r c; rewrite !mxE addn0 big_geq // addr0.
  by case: ifP.
rewrite IH; congr Ok; apply/matrixP => r c; rewrite !mxE.
case: ((r == i :> nat) && (c == j :> nat)) => //.
by rewrite addnS addSn [in RHS]big_ltn ?addrA // ltnS leq_addr.
Qed.

Variables (cond : nat -> nat -> bool) (g : nat -> nat -> R -> R).
Variable cell : nat -> nat -> 'M[R]_(m, n) -> result 'M[R]_(m, n).

Definition guarded (i j : nat) A : result 'M[R]_(m, n) :=
  if cond i j then cell i j A else Ok A.

Lemma forM_row (i : nat) (js : seq nat) A :
  (forall j B, j \in js -> cond i j -> cell i j B = Ok (mx_upd B i j (g i j))) ->
  uniq js ->
  forM js (guarded i) A
  = Ok (\matrix_(r, c) if [&& r == i :> nat, (c : nat) \in js & cond i c]
                       then g i c (A r c) else A r c).
Proof.
elim: js A => [|j js IH] A Hcell /=.
  by move=> _; congr Ok; apply/matrixP => r c; rewrite mxE ?in_nil ?andbF.
case/andP=> Hj Hjs.
have -> : guarded i j A = Ok (if cond i j then mx_upd A i j (g i j) else A).
  by rewrite /guarded; case E: (cond i j) => //; rewrite Hcell ?mem_head.
have Hcell' k B : k \in js -> cond i k -> cell i k B = Ok (mx_upd B i k (g i k)).
  by move=> Hk; apply: Hcell; rewrite in_cons Hk orbT.
rewrite /= (IH _ Hcell' Hjs).
congr Ok; apply/matrixP => r c; rewrite !mxE in_cons.
case Er: (r == i :> nat) => /=; last by case: (cond i j); rewrite ?mxE ?Er.
case Ec: ((c : nat) == j) => /=.
  move/eqP: Ec => Ec; rewrite Ec (negbTE Hj) /=.
  by case: (cond i j); rewrite ?mxE ?Er ?Ec ?eqxx.
by case: (cond i j); rewrite ?mxE ?Er ?Ec.
Qed.

Lemma forM_nest (rows js : seq nat) A :
  (forall i j B, i \in rows -> j \in js -> cond i j ->
     cell i j B = Ok (mx_upd B i j (g i j))) ->
  uniq rows -> uniq js ->
  forM rows (fun i cov => forM js (guarded i) cov) A
  = Ok (\matrix_(r, c) if [&& (r : nat) \in rows, (c : nat) \in js & cond r c]
                       then g r c (A r c) else A r c).
Proof.
move=> Hcell Hrows Hjs.
elim: rows A Hcell Hrows => [|i rows IH] A Hcell /=.
  by move=> _; congr Ok; apply/matrixP => r c; rewrite mxE ?in_nil.
case/andP=> Hi Hrows.
have Hrow j B : j \in js -> cond i j -> cell i j B = Ok (mx_upd B i j (g i j)).
  by move=> Hj; apply: Hcell => //; rewrite mem_head.
have Hcell' k j B : k \in rows -> j \in js -> cond k j ->
    cell k j B = Ok (mx_upd B k j (g k j)).
  by move=> Hk; apply: Hcell; rewrite in_cons Hk orbT.
rewrite (forM_row _ Hrow Hjs) /= (IH _ Hcell' Hrows).
congr Ok; apply/matrixP => r c; rewrite !mxE in_cons.
case Er: ((r : nat) == i) => /=.
  by move/eqP: Er => Er; rewrite Er (negbTE Hi).
by [].
Qed.

End LoopTheory.

(** ** The covariance generators *)

Section CovarianceTheory.

Variable self : tomography.

Lemma bindE (A B : Type) (x : A) (k : A -> result B) : bind (Ok x) k = k x.
Proof. by []. Qed.

Lemma pydiv_ok (x y : R) : y != 0 -> pydiv x y = Ok (x / y).
Proof. by rewrite /pydiv => /negbTE ->. Qed.

Lemma pydiv_zero (x : R) : pydiv x 0 = Raise ZeroDivisionError.
Proof. by rewrite /pydiv eqxx. Qed.

Lemma in_range (n : nat) (i : 'I_n) : (i : nat) \in range n.
Proof. by rewrite mem_iota add0n /=. Qed.

Lemma kolmogorov_covariance_ok (r0 : R) :
  r0 != 0 -> kolmogorov_covariance self r0 = Ok (kolmogorov_matrix self r0).
Proof.
move=> Hr0; rewrite /kolmogorov_covariance.
pose cell (i j : nat) (A : 'M[R]_nZernike) :=
  v <- kolmogorov_cell (DTel self) r0 (nollIndices (i + noll0 self)).1
         (nollIndices (i + noll0 self)).2 (nollIndices (j + noll0 self)).1 ;;
  Ok (mx_upd A i j (fun _ => v)).
pose g (i j : nat) (_ : R) :=
  kolmogorov_entry (DTel self / r0) (nollIndices (i + noll0 self)).1
    (nollIndices (i + noll0 self)).2 (nollIndices (j + noll0 self)).1.
have Hbody (i : nat) (A : 'M[R]_nZernike) : i \in range nZernike ->
    (let: (ni, mi) := nollIndices (i + noll0 self) in
     forM (range nZernike) (fun j cov =>
       let: (nj, mj) := nollIndices (j + noll0 self) in
       if even (i%:Z - j%:Z) then
         if mi == mj then
           v <- kolmogorov_cell (DTel self) r0 ni mi nj ;;
           Ok (mx_upd cov i j (fun _ => v))
         else Ok cov
       else Ok cov) A)
    = forM (range nZernike) (guarded (selected self) cell i) A.
  move=> _; rewrite /guarded /selected /cell.
  case: (nollIndices (i + noll0 self)) => ni mi.
  apply: eq_forM => j B _.
  by case: (nollIndices (j + noll0 self)) => nj mj /=; case: (even _).
rewrite (eq_forM _ Hbody).
have Hcell (i j : nat) (B : 'M[R]_nZernike) :
    i \in range nZernike -> j \in range nZernike -> selected self i j ->
    cell i j B = Ok (mx_upd B i j (g i j)).
  by move=> _ _ _; rewrite /cell /kolmogorov_cell pydiv_ok.
rewrite (forM_nest _ Hcell) ?iota_uniq //.
congr Ok; apply/matrixP => i j.
by rewrite !mxE !in_range.
Qed.

Lemma vonKarman_cell_ok (r0 L0 : R) (ni mi nj : int) (i j : nat)
    (A : 'M[R]_nZernike) :
  r0 != 0 -> L0 != 0 ->
  vonKarman_cell (DTel self) r0 L0 ni mi nj i j A
  = Ok (mx_upd A i j
          (fun c => c + vonKarman_series (DTel self) r0 L0 ni mi nj)).
Proof.
move=> Hr0 HL0; rewrite /vonKarman_cell pydiv_ok // bindE; lazy beta zeta.
have Hbody (k : nat) (B : 'M[R]_nZernike) : k \in range 50 ->
    (x <- pydiv (pi * DTel self) L0 ;;
     Ok (mx_upd B i j (fun c => c + vonKarman_term x (vonKarman_phase ni mi nj)
                                     (vonKarman_t1 (DTel self / r0) ni nj)
                                     ni nj k)))
    = Ok (mx_upd B i j
            (fun c => c + vonKarman_term (pi * DTel self / L0)
                            (vonKarman_phase ni mi nj)
                            (vonKarman_t1 (DTel self / r0) ni nj) ni nj k)).
  by move=> _; rewrite pydiv_ok.
by rewrite (eq_forM _ Hbody) /range forM_accumulate.
Qed.

Lemma vonKarman_covariance_ok (r0 L0 : R) :
  r0 != 0 -> L0 != 0 ->
  vonKarman_covariance self r0 L0 = Ok (vonKarman_matrix self r0 L0).
Proof.
move=> Hr0 HL0; rewrite /vonKarman_covariance.
pose cell (i j : nat) (A : 'M[R]_nZernike) :=
  vonKarman_cell (DTel self) r0 L0 (nollIndices (i + noll0 self)).1
    (nollIndices (i + noll0 self)).2 (nollIndices (j + noll0 self)).1 i j A.
pose g (i j : nat) (c : R) :=
  c + vonKarman_series (DTel self) r0 L0 (nollIndices (i + noll0 self)).1
        (nollIndices (i + noll0 self)).2 (nollIndices (j + noll0 self)).1.
have Hbody (i : nat) (A : 'M[R]_nZernike) : i \in range nZernike ->
    (let: (ni, mi) := nollIndices (i + noll0 self) in
     forM (range nZernike) (fun j cov =>
       let: (nj, mj) := nollIndices (j + noll0 self) in
       if even (i%:Z - j%:Z) then
         if mi == mj then vonKarman_cell (DTel self) r0 L0 ni mi nj i j cov
         else Ok cov
       else Ok cov) A)
    = forM (range nZernike) (guarded (selected self) cell i) A.
  move=> _; rewrite /guarded /selected /cell.
  case: (nollIndices (i + noll0 self)) => ni mi.
  apply: eq_forM => j B _.
  by case: (nollIndices (j + noll0 self)) => nj mj /=; case: (even _).
rewrite (eq_forM _ Hbody).
have Hcell (i j : nat) (B : 'M[R]_nZernike) :
    i \in range nZernike -> j \in range nZernike -> selected self i j ->
    cell i j B = Ok (mx_upd B i j (g i j)).
  by move=> _ _ _; rewrite /cell vonKarman_cell_ok.
rewrite (forM_nest _ Hcell) ?iota_uniq //.
congr Ok; apply/matrixP => i j.
by rewrite !mxE !in_range /= /g add0r.
Qed.

End CovarianceTheory.

(** ** The selection rule *)

Section SelectionRule.

Variables (self : tomography) (g : rng).

Lemma kolmogorov_builds (r0 : R) (keepOnly : option (seq R)) :
  r0 != 0 ->
  builds (generateTurbulentZernikesKolmogorov self g r0 keepOnly)
         (fun C => C = kolmogorov_matrix self r0).
Proof.
move=> Hr0; rewrite /generateTurbulentZernikesKolmogorov.
rewrite kolmogorov_covariance_ok // bindE.
case: (multivariate_normal _ _ _) => sample g'.
by eexists; exists g', (kolmogorov_matrix self r0); split; first reflexivity.
Qed.

Lemma vonKarman_builds (r0 L0 : R) :
  r0 != 0 -> L0 != 0 ->
  builds (generateTurbulentZernikesVonKarman self g r0 L0)
         (fun C => C = vonKarman_matrix self r0 L0).
Proof.
move=> Hr0 HL0; rewrite /generateTurbulentZernikesVonKarman.
rewrite vonKarman_covariance_ok // bindE.
case: (multivariate_normal _ _ _) => sample g'.
by eexists; exists g', (vonKarman_matrix self r0 L0); split; first reflexivity.
Qed.

Lemma builds_impl (res : result (tomography * rng))
    (P Q : 'M[R]_nZernike -> Prop) :
  (forall C, P C -> Q C) -> builds res P -> builds res Q.
Proof.
by move=> PQ [self' [g' [C [Hres Hcov HP]]]]; exists self', g', C; split; auto.
Qed.

Lemma not_selected (i j : 'I_nZernike) :
  ((nollIndices (i + noll0 self)).2 != (nollIndices (j + noll0 self)).2)
  || ~~ even (i%:Z - j%:Z) ->
  selected self i j = false.
Proof.
rewrite /selected; case: (even _) => /=; last by [].
by rewrite orbF => /negbTE.
Qed.

(** C1. For a Fried parameter and an outer scale different from zero, both
    generators return, and the covariance matrix they leave in the session has
    entry [i, j] equal to zero whenever the azimuthal frequencies of the modes
    [i] and [j] differ or [i - j] is odd. *)
Theorem selection_rule_holds (r0 L0 : R) (keepOnly : option (seq R)) :
  r0 != 0 -> L0 != 0 ->
  builds (generateTurbulentZernikesKolmogorov self g r0 keepOnly)
         (selection_rule self)
  /\ builds (generateTurbulentZernikesVonKarman self g r0 L0)
            (selection_rule self).
Proof.
move=> Hr0 HL0; split.
  apply: builds_impl (kolmogorov_builds keepOnly Hr0) => C -> i j Hij.
  by rewrite mxE not_selected.
apply: builds_impl (vonKarman_builds Hr0 HL0) => C -> i j Hij.
by rewrite mxE not_selected.
Qed.

End SelectionRule.

(** ** Symmetry *)

Section Symmetry.

Variables (self : tomography) (g : rng).

Lemma evenE (x : int) : even x = (2 %| x)%Z.
Proof. by rewrite /even; apply/eqP/dvdz_mod0P. Qed.

Lemma even_sym (x y : int) : even (x - y) = even (y - x).
Proof. by rewrite !evenE !dvdzE -(opprB y x) abszN. Qed.

Lemma selected_sym (i j : nat) : selected self i j = selected self j i.
Proof. by rewrite /selected even_sym eq_sym. Qed.

Lemma kolmogorov_entry_sym (q : R) (ni m nj : int) :
  kolmogorov_entry q ni m nj = kolmogorov_entry q nj m ni.
Proof.
rewrite /kolmogorov_entry [nj + ni]addrC [(nj + 1) * (ni + 1)]mulrC.
by congr (_ * _ * _ / (_ * _)); rewrite mulrC.
Qed.

Lemma vonKarman_phase_sym (ni m nj : int) :
  vonKarman_phase ni m nj = vonKarman_phase nj m ni.
Proof. by rewrite /vonKarman_phase [nj + ni]addrC. Qed.

Lemma vonKarman_t1_sym (q : R) (ni nj : int) :
  vonKarman_t1 q ni nj = vonKarman_t1 q nj ni.
Proof. by rewrite /vonKarman_t1 [(nj + 1) * (ni + 1)]mulrC. Qed.

Lemma vonKarman_phase2_sym (x : R) (ni nj : int) (k : nat) :
  vonKarman_phase2 x ni nj k = vonKarman_phase2 x nj ni k.
Proof. by rewrite /vonKarman_phase2 [_ + ni%:~R + nj%:~R]addrAC. Qed.

Lemma vonKarman_t2_sym (ni nj : int) (k : nat) :
  vonKarman_t2 ni nj k = vonKarman_t2 nj ni k.
Proof. by rewrite /vonKarman_t2 [3 + ni + nj]addrAC [ni + nj]addrC. Qed.

Lemma vonKarman_t3_sym (ni nj : int) (k : nat) :
  vonKarman_t3 ni nj k = vonKarman_t3 nj ni k.
Proof.
by rewrite /vonKarman_t3 [_ + ni%:~R + nj%:~R]addrAC [_ * _ * gamma _]mulrAC.
Qed.

Lemma vonKarman_t4_sym (ni nj : int) (k : nat) :
  vonKarman_t4 ni nj k = vonKarman_t4 nj ni k.
Proof. by rewrite /vonKarman_t4 [ni + nj]addrC. Qed.

(** Exchanging the two modes changes one term of the series by the mismatch
    of [t5] only. *)
Lemma vonKarman_term_swap (x q : R) (ni m nj : int) (k : nat) :
  vonKarman_term x (vonKarman_phase ni m nj) (vonKarman_t1 q ni nj) ni nj k
  - vonKarman_term x (vonKarman_phase nj m ni) (vonKarman_t1 q nj ni) nj ni k
  = vonKarman_phase ni m nj * vonKarman_t1 q ni nj
    * (vonKarman_phase3 x k * vonKarman_t4 ni nj k
       * ((vonKarman_t5 ni nj k)^-1 - (vonKarman_t5 nj ni k)^-1)).
Proof.
rewrite /vonKarman_term (vonKarman_phase_sym nj) (vonKarman_t1_sym q nj).
rewrite (vonKarman_phase2_sym x nj) (vonKarman_t2_sym nj).
rewrite (vonKarman_t3_sym nj) (vonKarman_t4_sym nj).
by ring.
Qed.

Lemma vonKarman_series_swap (D r0 L0 : R) (ni m nj : int) :
  vonKarman_series D r0 L0 ni m nj - vonKarman_series D r0 L0 nj m ni
  = vonKarman_asymmetry D r0 L0 ni m nj.
Proof.
rewrite /vonKarman_series /vonKarman_asymmetry -sumrB mulr_sumr.
by apply: eq_bigr => k _; rewrite vonKarman_term_swap.
Qed.

(** C2. For a Fried parameter and an outer scale different from zero: the
    Kolmogorov covariance matrix is symmetric; the von Karman matrix differs
    from its transpose, at every selected pair of modes, by the mismatch of
    [t5] between the two orders of the radial degrees (the factor of
    [ni - nj] is taken twice where the Kolmogorov generator takes [ni - nj]
    and [nj - ni]). *)
Theorem covariance_symmetry (r0 L0 : R) (keepOnly : option (seq R)) :
  r0 != 0 -> L0 != 0 ->
  builds (generateTurbulentZernikesKolmogorov self g r0 keepOnly)
         (fun C => forall i j, C i j = C j i)
  /\ builds (generateTurbulentZernikesVonKarman self g r0 L0)
            (fun C => forall i j : 'I_nZernike,
               C i j - C j i =
               if selected self i j then
                 vonKarman_asymmetry (DTel self) r0 L0
                   (nollIndices (i + noll0 self)).1
                   (nollIndices (i + noll0 self)).2
                   (nollIndices (j + noll0 self)).1
               else 0).
Proof.
move=> Hr0 HL0; split.
  apply: builds_impl (kolmogorov_builds self g keepOnly Hr0) => C -> i j.
  rewrite !mxE (selected_sym j); case E: (selected self i j) => //.
  case/andP: E => _ /eqP E.
  by rewrite -E kolmogorov_entry_sym.
apply: builds_impl (vonKarman_builds self g Hr0 HL0) => C -> i j.
rewrite !mxE (selected_sym j); case E: (selected self i j); last by rewrite subrr.
case/andP: E => _ /eqP E.
by rewrite -E vonKarman_series_swap.
Qed.

End Symmetry.

(** ** Stacking *)

Section Stacking.

Variable M0 : tensor4.
Implicit Type A : 'M[R]_(nStars * nZernike, nHeight * nZernike).

Lemma in_block (n j r : nat) :
  (0 < n)%N -> (j * n <= r < j.+1 * n)%N = (r %/ n == j)%N.
Proof.
by move=> Hn; rewrite -leq_divRL // -ltn_divLR // ltnS andbC -eqn_leq.
Qed.

Lemma sub_block (n j r : nat) : (r %/ n == j)%N -> (r - j * n = r %% n)%N.
Proof. by move/eqP=> <-; rewrite {1}(divn_eq r n) addKn. Qed.

Lemma stack_stars (i : nat) (js : seq nat) A r c :
  (0 < nZernike)%N ->
  foldl (fun MStack j =>
           let left := (i * nZernike)%N in
           let right := (i.+1 * nZernike)%N in
           let up := (j * nZernike)%N in
           let down := (j.+1 * nZernike)%N in
           set_slice MStack up down left right (fun p q => M0 p q i j))
        A js r c
  = if ((r %/ nZernike)%N \in js) && ((c %/ nZernike)%N == i)
    then M0 (r %% nZernike)%N (c %% nZernike)%N i (r %/ nZernike)%N
    else A r c.
Proof.
move=> Hn; elim: js A => [|j js IH] A //=.
rewrite IH in_cons mxE !in_block //.
case Ej: (_ == j) => /=; last by case: ifP.
case Ei: (_ == i) => /=; last by rewrite !andbF.
by rewrite !sub_block // (eqP Ej) andbT; case: ifP.
Qed.

Lemma stack_heights (rows : seq nat) A r c :
  (0 < nZernike)%N ->
  foldl (fun MStack i =>
           foldl (fun MStack j =>
                    let left := (i * nZernike)%N in
                    let right := (i.+1 * nZernike)%N in
                    let up := (j * nZernike)%N in
                    let down := (j.+1 * nZernike)%N in
                    set_slice MStack up down left right
                              (fun p q => M0 p q i j))
                 MStack (range nStars))
        A rows r c
  = if ((c %/ nZernike)%N \in rows) && ((r %/ nZernike)%N \in range nStars)
    then M0 (r %% nZernike)%N (c %% nZernike)%N
            (c %/ nZernike)%N (r %/ nZernike)%N
    else A r c.
Proof.
move=> Hn; elim: rows A => [|i rows IH] A //=.
rewrite IH in_cons stack_stars //.
case Ei: (_ == i) => /=; last by rewrite andbF.
rewrite (eqP Ei) andbT.
by case: (i \in rows); case: (_ \in range nStars).
Qed.

Lemma stacked_loops :
  foldl (fun MStack i =>
           foldl (fun MStack j =>
                    let left := (i * nZernike)%N in
                    let right := (i.+1 * nZernike)%N in
                    let up := (j * nZernike)%N in
                    let down := (j.+1 * nZernike)%N in
                    set_slice MStack up down left right
                              (fun p q => M0 p q i j))
                 MStack (range nStars))
        (const_mx 0) (range nHeight)
  = stacked M0.
Proof.
apply/matrixP => r c.
have Hn : (0 < nZernike)%N.
  by case: (nZernike) r => [|n] // [r]; rewrite muln0.
rewrite stack_heights // !mxE /range !mem_iota /= !add0n.
by rewrite (div_proof r) (div_proof c).
Qed.

Lemma stackProjection_ok (self : tomography) :
  M self = Some M0 -> stackProjection self = Ok (set_MStack self (stacked M0)).
Proof.
move=> HM; rewrite /stackProjection HM /=; congr (Ok (set_MStack _ _)).
exact: stacked_loops.
Qed.

(** C5. The stacked matrix has [nStars * nZernike] rows and
    [nHeight * nZernike] columns; its block at block-row [j] (a star) and
    block-column [i] (a layer) is [M[:, :, i, j]]; and the flattened
    coefficient vector holds mode [p] of layer [i] at position
    [i * nZernike + p]. *)
Theorem stacked_blocks (self : tomography) :
  M self = Some M0 ->
  exists MS : 'M[R]_(nStars * nZernike, nHeight * nZernike),
    [/\ stackProjection self = Ok (set_MStack self MS),
        MStack (set_MStack self MS) = Some MS,
        forall (j : 'I_nStars) (i : 'I_nHeight) (p q : 'I_nZernike),
          MS (blk j p) (blk i q) = M0 p q i j
      & forall (orig : 'M[R]_(nZernike, nHeight)) (i : 'I_nHeight)
               (p : 'I_nZernike),
          flatten orig^T (blk i p) 0 = orig p i].
Proof.
move=> HM; exists (stacked M0); split=> //.
- exact: stackProjection_ok.
- move=> j i p q; rewrite mxE.
  have /(congr1 val) /= -> := div_blk j p.
  have /(congr1 val) /= -> := div_blk i q.
  have /(congr1 val) /= -> := mod_blk j p.
  by have /(congr1 val) /= -> := mod_blk i q.
- by move=> orig i p; rewrite flatten_blk mxE.
Qed.

End Stacking.

(** ** Least squares *)

Section LeastSquares.

Implicit Type MS : 'M[R]_(nStars * nZernike, nHeight * nZernike).

Lemma inv_ok (n : nat) (A : 'M[R]_n) : A \in unitmx -> inv A = Ok (invmx A).
Proof. by rewrite /inv => ->. Qed.

Lemma dict_item_set (V : Type) (d : dict V) (k : string) (v : V) :
  dict_item (dict_set d k v) k = Ok v.
Proof. by rewrite /dict_item dict_get_set_same. Qed.

Lemma solveSVD_plain (self : tomography) (b : 'cV[R]_(nStars * nZernike)) MS :
  MStack self = Some MS -> MS^T *m MS \in unitmx ->
  solveSVD self b false
  = Ok (set_a (set_aStack self (dict_set (aStack self) "SVD"
                                 (invmx (MS^T *m MS) *m MS^T *m b)))
              (dict_set (a self) "SVD"
                 (reshape (invmx (MS^T *m MS) *m MS^T *m b))^T)).
Proof.
move=> HM Hu; rewrite /solveSVD HM /= inv_ok //= dict_item_set /=.
by [].
Qed.

Lemma solveSVD_tikhonov (self : tomography) (b : 'cV[R]_(nStars * nZernike))
    MS (cov : 'M[R]_nZernike) :
  MStack self = Some MS -> covariance self = Some cov -> cov \in unitmx ->
  let C := block_diag [tuple invmx cov | i < nHeight] in
  MS^T *m MS + C^T *m C \in unitmx ->
  solveSVD self b true
  = Ok (set_a (set_aStack self
                 (dict_set (aStack self) "SVD"
                    (invmx (MS^T *m MS + C^T *m C) *m MS^T *m b)))
              (dict_set (a self) "SVD"
                 (reshape (invmx (MS^T *m MS + C^T *m C) *m MS^T *m b))^T)).
Proof.
move=> HM Hcov Hu C HuC.
rewrite /solveSVD HM Hcov /= inv_ok //= inv_ok //= dict_item_set /=.
by [].
Qed.

(** C3, as the code has it.  Without noise, when [MStack.T @ MStack] is
    invertible, the unregularized solve of the measurement
    [MStack @ flatten(x)] returns and stores the realization [x] itself
    under the key [SVD], in exact arithmetic.  (In double precision the
    error of the estimate grows with the condition number of the normal
    matrix and has no bound that holds for every invertible one.) *)
Theorem noiseless_recovery (forward inversion : tomography) MS
    (orig : 'M[R]_(nZernike, nHeight)) :
  MStack forward = Some MS -> MStack inversion = Some MS ->
  dict_get (aStack forward) "Original" = Some (flatten orig^T) ->
  MS^T *m MS \in unitmx ->
  exists b inversion',
    [/\ generateWFS forward = Ok b,
        b = MS *m flatten orig^T,
        solveSVD inversion b false = Ok inversion',
        dict_get (aStack inversion') "SVD" = Some (flatten orig^T)
      & dict_get (a inversion') "SVD" = Some orig].
Proof.
move=> Hf Hi Ho Hu.
exists (MS *m flatten orig^T); eexists; split.
- by rewrite /generateWFS Hf /= /dict_item Ho.
- by [].
- exact: (solveSVD_plain _ Hi Hu).
- by rewrite /= dict_get_set_same -mulmxA (mulmxA _ MS) mulKmx.
- rewrite /= dict_get_set_same -mulmxA (mulmxA _ MS) mulKmx //.
  by rewrite reshape_flatten trmxK.
Qed.

(** C4. With [regularize=True], when the covariance and the regularized normal
    matrix are invertible, the solve returns; the vector [x] it stores under
    [SVD] in [self.aStack] solves [(M^T M + C^T C) x = M^T b], where [C] is
    block diagonal with [nHeight] copies of the inverse covariance; and the
    estimate stored in [self.a] is [x] reshaped, mode [p] of layer [i] being
    [x[i * nZernike + p]]. *)
Theorem tikhonov_solution (self : tomography)
    (b : 'cV[R]_(nStars * nZernike)) MS (cov : 'M[R]_nZernike) :
  MStack self = Some MS -> covariance self = Some cov -> cov \in unitmx ->
  let C := block_diag [tuple invmx cov | i < nHeight] in
  MS^T *m MS + C^T *m C \in unitmx ->
  exists self' x est,
    [/\ solveSVD self b true = Ok self',
        (MS^T *m MS + C^T *m C) *m x = MS^T *m b,
        dict_get (aStack self') "SVD" = Some x
      & dict_get (a self') "SVD" = Some est]
    /\ (forall (i : 'I_nHeight) (p : 'I_nZernike), est p i = x (blk i p) 0)
    /\ (forall (i i' : 'I_nHeight) (p q : 'I_nZernike),
          C (blk i p) (blk i' q) = if i == i' then invmx cov p q else 0).
Proof.
move=> HM Hcov Hu C HuC.
pose x := invmx (MS^T *m MS + C^T *m C) *m MS^T *m b.
exists (set_a (set_aStack self (dict_set (aStack self) "SVD" x))
              (dict_set (a self) "SVD" (reshape x)^T)), x, (reshape x)^T.
split; [split | split].
- exact: (solveSVD_tikhonov _ HM Hcov Hu HuC).
- by rewrite /x -mulmxA mulKVmx.
- by rewrite /= dict_get_set_same.
- by rewrite /= dict_get_set_same.
- by move=> i p; rewrite !mxE.
- by move=> i i' p q; rewrite mxE !div_blk !mod_blk tnth_mktuple.
Qed.

End LeastSquares.

(** ** The sparse solver and the frame of the solve calls *)

Section Solvers.

Implicit Type MS : 'M[R]_(nStars * nZernike, nHeight * nZernike).

Lemma solveFASTA_ok (self : tomography) (b : 'cV[R]_(nStars * nZernike)) MS
    (orig : 'cV[R]_(nHeight * nZernike)) :
  MStack self = Some MS -> dict_get (aStack self) "Original" = Some orig ->
  solveFASTA self b
  = Ok (let values :=
          fasta_optimize (fasta_call MS MS^T b (norm2 MS ^+ 2) (10%:R ^- 5)
                                     (const_mx 0)) in
        let self := set_mu (set_MStackStar self MS^T) (10%:R ^- 5) in
        set_a (set_aStack self (dict_set (aStack self) "L1" values))
              (dict_set (a self) "L1" (reshape values)^T)).
Proof.
move=> HM Ho; rewrite /solveFASTA HM /= /dict_item /= Ho /=.
by rewrite dict_get_set_same.
Qed.

Lemma data_gradient_sub (b : 'cV[R]_(nStars * nZernike)) MS (L mu : R)
    (v x y : 'cV[R]_(nHeight * nZernike)) :
  data_gradient (fasta_call MS MS^T b L mu v) x
  - data_gradient (fasta_call MS MS^T b L mu v) y
  = MS^T *m (MS *m (x - y)).
Proof.
rewrite /data_gradient /= -mulmxBr; congr (_ *m _).
by rewrite mulmxBr opprB addrA subrK.
Qed.

(** C8. The sparse solver returns the result of the solver called with the
    step size [tau = 1.32 / L], [L] being the square of
    [np.linalg.norm(MStack, 2)]; and, that norm being the spectral norm (a
    bound on the gain of [MStack] and of its transpose), [L] is a Lipschitz
    constant of the gradient of the data term. *)
Theorem fasta_step_size (self : tomography) (b : 'cV[R]_(nStars * nZernike))
    MS (orig : 'cV[R]_(nHeight * nZernike)) :
  MStack self = Some MS -> dict_get (aStack self) "Original" = Some orig ->
  norm2 MS != 0 ->
  spectral_bound MS (norm2 MS) -> spectral_bound MS^T (norm2 MS) ->
  exists (self' : tomography) (call : fasta_args),
    [/\ solveFASTA self b = Ok self',
        dict_get (aStack self') "L1" = Some (fasta_optimize call),
        fa_tau call = 132%:R / 100%:R / norm2 MS ^+ 2
      & forall x y,
          sq_norm (data_gradient call x - data_gradient call y)
          <= (norm2 MS ^+ 2) ^+ 2 * sq_norm (x - y)].
Proof.
move=> HM Ho _ [Hs HA] [_ HAt]; eexists.
exists (fasta_call MS MS^T b (norm2 MS ^+ 2) (10%:R ^- 5) (const_mx 0)).
split.
- exact: (solveFASTA_ok _ HM Ho).
- by rewrite /= dict_get_set_same.
- by [].
- move=> x y; rewrite data_gradient_sub [(_ ^+ 2) ^+ 2]expr2 -mulrA.
  apply: (Order.le_trans (HAt _)).
  by apply: ler_wpM2l; [exact: exprn_ge0 | exact: HA].
Qed.

Lemma solveSVD_frame (self self' : tomography)
    (b : 'cV[R]_(nStars * nZernike)) (regularize : bool) :
  solveSVD self b regularize = Ok self' -> frame_except "SVD" self self'.
Proof.
rewrite /solveSVD.
case: (if regularize then _ else _) => [AInv|e] //=.
case: (MStack self) => [MS|] //=.
rewrite dict_item_set /= => -[<-] /=.
by split=> // k Hk; rewrite dict_get_set_other.
Qed.

Lemma solveFASTA_frame (self self' : tomography)
    (b : 'cV[R]_(nStars * nZernike)) :
  solveFASTA self b = Ok self' -> frame_except "L1" self self'.
Proof.
rewrite /solveFASTA.
case: (MStack self) => [MS|] //=.
rewrite /dict_item /=.
case: (dict_get (aStack self) "Original") => [orig|] //=.
rewrite dict_get_set_same => -[<-] /=.
by split=> // k Hk; rewrite dict_get_set_other.
Qed.

Lemma solveSVD_writes (self self' : tomography)
    (b : 'cV[R]_(nStars * nZernike)) (regularize : bool) :
  solveSVD self b regularize = Ok self' -> estimate_only self self'.
Proof.
rewrite /solveSVD.
case: (if regularize then _ else _) => [AInv|e] //=.
case: (MStack self) => [MS|] //=.
by rewrite dict_item_set /= => -[<-].
Qed.

Lemma solveFASTA_writes (self self' : tomography)
    (b : 'cV[R]_(nStars * nZernike)) :
  solveFASTA self b = Ok self' ->
  exists MS,
    MStack self = Some MS
    /\ estimate_only (set_mu (set_MStackStar self MS^T) (10%:R ^- 5)) self'.
Proof.
rewrite /solveFASTA.
case HM: (MStack self) => [MS|] //=.
rewrite /dict_item /=.
case: (dict_get (aStack self) "Original") => [orig|] //=.
by rewrite dict_get_set_same => -[<-]; exists MS.
Qed.

(** C10, as the code has it.  A returning [solveSVD] writes the entries of
    its key [SVD] in [self.a] and [self.aStack] and nothing else.  A
    returning [solveFASTA] writes the entries of its key [L1] and, besides,
    the attributes [self.MStackStar] (the transposed stacked matrix) and
    [self.mu] (the weight [1e-5]).  Every other attribute, the stacked
    matrix and the covariance included, and every other entry of the two
    dictionaries, the realization under [Original] included, is the one of
    the session before the call. *)
Theorem solve_frame (self self' : tomography)
    (b : 'cV[R]_(nStars * nZernike)) (regularize : bool) :
  (solveSVD self b regularize = Ok self' ->
     [/\ estimate_only self self',
         keeps_other_entries "SVD" self self',
         dict_get (a self') "Original" = dict_get (a self) "Original"
       & dict_get (aStack self') "Original"
         = dict_get (aStack self) "Original"])
  /\ (solveFASTA self b = Ok self' ->
        exists MS,
          [/\ MStack self = Some MS,
              estimate_only
                (set_mu (set_MStackStar self MS^T) (10%:R ^- 5)) self',
              keeps_other_entries "L1" self self',
              dict_get (a self') "Original" = dict_get (a self) "Original"
            & dict_get (aStack self') "Original"
              = dict_get (aStack self) "Original"]).
Proof.
split=> H.
  have [_ _ _ Ha Hs] := solveSVD_frame H.
  split; [exact: solveSVD_writes H | | by rewrite Ha | by rewrite Hs].
  by move=> k Hk; rewrite Ha ?Hs.
have [_ _ _ Ha Hs] := solveFASTA_frame H.
have [MS [HM Hw]] := solveFASTA_writes H.
exists MS; split; [exact: HM | exact: Hw | | by rewrite Ha | by rewrite Hs].
by move=> k Hk; rewrite Ha ?Hs.
Qed.

End Solvers.

(** ** The keep-list *)

Section KeepList.

Variables (self : tomography) (g : rng).

Lemma zero_cols (keep : seq R) (cols : seq nat)
    (a0 : 'M[R]_(nZernike, nHeight)) p (c : 'I_nHeight) :
  foldl (fun a1 i =>
           if nth 0 (heights self) i / 1000%:R \notin keep
           then zero_col a1 i else a1) a0 cols p c
  = if ((c : nat) \in cols) && (tnth (heights self) c / 1000%:R \notin keep)
    then 0 else a0 p c.
Proof.
elim: cols a0 => [|i cols IH] a0 //=.
rewrite IH in_cons (tnth_nth 0).
case Ec: ((c : nat) == i) => /=.
  rewrite -(eqP Ec); case: (_ \notin keep); rewrite ?mxE ?eqxx ?andbF //.
  by case: ifP.
by case: (nth _ _ i / _ \notin keep); rewrite ?mxE ?Ec.
Qed.

Lemma keep_layers_ok (keep : seq R) (a0 : 'M[R]_(nZernike, nHeight)) p c :
  keep_layers self (Some keep) a0 p c
  = if tnth (heights self) c / 1000%:R \in keep then a0 p c else 0.
Proof.
by rewrite /keep_layers zero_cols in_range /=; case: (_ \in keep).
Qed.

(** The keep-list in exact arithmetic, where the conversion of a height to
    metres and back returns it: the Kolmogorov generator (for a Fried
    parameter different from zero) returns a realization whose column of a
    layer is the column drawn for it when the height of the layer, in km, is
    in the list, and is zero otherwise. *)
Lemma keep_list_zeroes (r0 : R) (keep : seq R) (km : nHeight.-tuple R) :
  r0 != 0 ->
  (forall i, tnth (heights self) i = tnth km i * 1000%:R) ->
  exists self' orig,
    let draw :=
      multivariate_normal g (const_mx 0) (kolmogorov_matrix self r0) in
    [/\ generateTurbulentZernikesKolmogorov self g r0 (Some keep)
        = Ok (self', draw.2),
        dict_get (a self') "Original" = Some orig,
        dict_get (aStack self') "Original" = Some (flatten orig^T)
      & forall (i : 'I_nHeight) (p : 'I_nZernike),
          orig p i = if tnth km i \in keep then draw.1 i p else 0].
Proof.
move=> Hr0 Hkm; rewrite /generateTurbulentZernikesKolmogorov.
rewrite kolmogorov_covariance_ok // bindE.
case: (multivariate_normal _ _ _) => sample g' /=.
eexists; eexists; split; first by reflexivity.
- by rewrite /= dict_get_set_same.
- by rewrite /= dict_get_set_same.
move=> i p; rewrite keep_layers_ok /= Hkm mulfK ?mxE //.
by rewrite pnatr_eq0.
Qed.

End KeepList.

(** ** Parameters are not validated *)

Section Validation.

Variables (self : tomography) (g : rng).

Lemma even0 (i : nat) : even (i%:Z - i%:Z).
Proof. by rewrite subrr. Qed.

Lemma range_pos (n : nat) : (0 < n)%N -> range n = 0%N :: iota 1 n.-1.
Proof. by case: n. Qed.

Lemma kolmogorov_zero_r0 (keepOnly : option (seq R)) :
  (0 < nZernike)%N ->
  generateTurbulentZernikesKolmogorov self g 0 keepOnly
  = Raise ZeroDivisionError.
Proof.
move=> Hn.
rewrite /generateTurbulentZernikesKolmogorov /kolmogorov_covariance.
rewrite (range_pos Hn) /=.
case: (nollIndices _) => ni mi /=.
by rewrite ?even0 eqxx /kolmogorov_cell pydiv_zero.
Qed.

Lemma forM_cons (S : Type) (i : nat) (s : seq nat)
    (body : nat -> S -> result S) (st : S) :
  forM (i :: s) body st = (st' <- body i st ;; forM s body st').
Proof. by []. Qed.

Lemma bind_Raise (A B : Type) (e : exn) (k : A -> result B) :
  bind (Raise e) k = Raise e.
Proof. by []. Qed.

Lemma vonKarman_cell_zero (r0 L0 : R) (ni mi nj : int) (i j : nat)
    (A : 'M[R]_nZernike) :
  (r0 == 0) || (L0 == 0) ->
  vonKarman_cell (DTel self) r0 L0 ni mi nj i j A = Raise ZeroDivisionError.
Proof.
rewrite /vonKarman_cell.
case Hr0: (r0 == 0) => /= H0; first by rewrite (eqP Hr0) pydiv_zero.
rewrite (eqP H0) pydiv_ok ?Hr0 // bindE; lazy beta zeta.
by rewrite pydiv_zero.
Qed.

Local Arguments vonKarman_cell : simpl never.

Lemma vonKarman_zero (r0 L0 : R) :
  (0 < nZernike)%N -> (r0 == 0) || (L0 == 0) ->
  generateTurbulentZernikesVonKarman self g r0 L0 = Raise ZeroDivisionError.
Proof.
move=> Hn H0.
rewrite /generateTurbulentZernikesVonKarman /vonKarman_covariance.
rewrite (range_pos Hn) /=.
case: (nollIndices _) => ni mi /=.
by rewrite ?even0 eqxx vonKarman_cell_zero.
Qed.

Lemma pydiv_opp (x y : R) : pydiv (- x) (- y) = pydiv x y.
Proof.
by rewrite /pydiv oppr_eq0; case: ifP => // _; rewrite invrN mulrNN.
Qed.

Lemma kolmogorov_covariance_opp (self' : tomography) (r0 : R) :
  noll0 self' = noll0 self -> DTel self' = - DTel self ->
  kolmogorov_covariance self' (- r0) = kolmogorov_covariance self r0.
Proof.
move=> Hn HD.
by rewrite /kolmogorov_covariance /kolmogorov_cell Hn HD pydiv_opp.
Qed.

Lemma vonKarman_covariance_opp (self' : tomography) (r0 L0 : R) :
  noll0 self' = noll0 self -> DTel self' = - DTel self ->
  vonKarman_covariance self' (- r0) (- L0) = vonKarman_covariance self r0 L0.
Proof.
move=> Hn HD.
by rewrite /vonKarman_covariance /vonKarman_cell Hn HD mulrN !pydiv_opp.
Qed.

(** C7, as the code has it.  The generators do not validate their
    parameters and have no error of their own.  The signs of the telescope
    diameter, of the Fried parameter and of the outer scale are never
    looked at: on the three values negated the covariance loops do, step by
    step, what they do on the values themselves.  A Fried parameter equal to
    zero, with at least one mode, fails on the division of Python floats. *)
Theorem no_parameter_validation (self' : tomography) (r0 L0 : R)
    (keepOnly : option (seq R)) :
  noll0 self' = noll0 self -> DTel self' = - DTel self ->
  [/\ kolmogorov_covariance self' (- r0) = kolmogorov_covariance self r0,
      vonKarman_covariance self' (- r0) (- L0)
      = vonKarman_covariance self r0 L0,
      (0 < nZernike)%N ->
      generateTurbulentZernikesKolmogorov self g 0 keepOnly
      = Raise ZeroDivisionError
    & (0 < nZernike)%N ->
      generateTurbulentZernikesVonKarman self g 0 L0
      = Raise ZeroDivisionError].
Proof.
move=> Hn HD; split.
- exact: kolmogorov_covariance_opp.
- exact: vonKarman_covariance_opp.
- exact: kolmogorov_zero_r0.
- by move=> Hz; apply: vonKarman_zero; rewrite ?eqxx.
Qed.

End Validation.

(** ** Construction from the store of projection tensors *)

Section Store.

Variables (fov_ : R) (heights_ : nHeight.-tuple R) (DTel_ : R).
Variables (numericalProjection_ addPiston_ : bool).

Local Notation start verbose_ :=
  (init_state fov_ heights_ DTel_ verbose_ numericalProjection_ addPiston_).

Lemma covers_verbose (v w : bool) (out : npz) :
  covers (start v) out = covers (start w) out.
Proof. by []. Qed.

Lemma cached_slice_verbose (v w : bool) (out : npz) :
  cached_slice (start v) out = cached_slice (start w) out.
Proof. by []. Qed.

(** The positions selected in a record that stores the heights of the
    session itself are all of them. *)
Lemma cached_indices_own (self : tomography) (out : npz) :
  arr_1 out = heights self -> cached_indices self out = range nHeight.
Proof.
move=> H1; rewrite /cached_indices H1 size_tuple.
apply/all_filterP/allP => k; rewrite mem_iota add0n /= => Hk.
by rewrite mem_nth // size_tuple.
Qed.

(** A record of the session's own configuration covers it. *)
Lemma covers_own (self : tomography) (M0 : tensor4) :
  covers self (Npz M0 (heights self) nStars nZernike (fov self) (DTel self)).
Proof.
by rewrite /covers cached_indices_own //= size_iota !eqxx leqnn.
Qed.

(** The scan stops at the first file that covers the configuration. *)
Lemma projectionExists_hit (self : tomography) (pre post : seq npz)
    (out : npz) :
  all (fun f => ~~ covers self f) pre -> covers self out ->
  projectionExists self (pre ++ out :: post)
  = if verbose self then
      Ok (set_MStack (set_MComputed (set_M self (cached_slice self out)) true)
                     (stacked (cached_slice self out)), true)
    else Ok (set_M self (cached_slice self out), true).
Proof.
elim: pre => [|f pre IH] /=.
  move=> _ ->; case Hv: (verbose self) => //.
  congr (Ok (set_MStack _ _, _)).
  exact: (stacked_loops (cached_slice self out)).

by case/andP=> /negbTE -> Hpre Hout; rewrite IH.
Qed.

Lemma projectionExists_miss (self : tomography) (files : seq npz) :
  all (fun f => ~~ covers self f) files ->
  projectionExists self files = Ok (self, false).
Proof.
by elim: files => [|f files IH] //= /andP [/negbTE -> Hfiles]; rewrite IH.
Qed.

(** C9.  When a file of the store covers the configuration, the constructor
    takes the projection tensor from the first such file, sliced, and leaves
    the store as it was, whatever the geometry resolver computes.  With
    [verbose=True] the session holds the stacked matrix of that slice, the
    same at every construction.  With [verbose=False] the stacking is
    skipped: the session has no stacked matrix, and the forward operator
    fails on the missing attribute. *)
Theorem cached_construction (pre post : seq npz) (out : npz) :
  all (fun f => ~~ covers (start true) f) pre -> covers (start true) out ->
  let files := pre ++ out :: post in
  let slice := cached_slice (start true) out in
  (exists self,
     [/\ init fov_ heights_ DTel_ true numericalProjection_ addPiston_ files
         = Ok (self, files),
         M self = Some slice
       & MStack self = Some (stacked slice)])
  /\ (exists self,
        [/\ init fov_ heights_ DTel_ false numericalProjection_ addPiston_
              files
            = Ok (self, files),
            M self = Some slice,
            MStack self = None
          & generateWFS self = Raise AttributeError]).
Proof.
move=> Hpre Hout files slice; split.
  eexists; split; first by rewrite /init (projectionExists_hit _ Hpre Hout).
    by [].
  by [].
eexists; split.
- rewrite /init (@projectionExists_hit (start false)) //.
- by [].
- by [].
- by [].
Qed.

End Store.

(** ** The store of projection tensors: computing, saving, reading back *)

Section StoreRoundTrip.

Variables (fov_ : R) (heights_ : nHeight.-tuple R) (DTel_ : R).
Variables (numericalProjection_ addPiston_ : bool).

Local Notation start verbose_ :=
  (init_state fov_ heights_ DTel_ verbose_ numericalProjection_ addPiston_).

Lemma computed_stars (self : tomography) (i : nat) (js : seq nat)
    (M1 : tensor4) p q h s :
  foldl (fun M j =>
      let B :=
        if numericalProjection self then
          zernikeProjectionMatrixNumerical nZernike
            (mx_get (beta self) i j) (mx_get (t self) i j)
            (mx_get (angle self) i j)
        else
          zernikeProjectionMatrix nZernike
            (mx_get (beta self) i j) (mx_get (t self) i j)
            (mx_get (angle self) i j) in
      (fun p q h s : nat => if (h == i) && (s == j) then B p q
                            else M p q h s)) M1 js p q h s
  = if (h == i) && (s \in js) then resolved self i s p q else M1 p q h s.
Proof.
elim: js M1 => [|j js IH] M1 /=; first by rewrite in_nil andbF.
rewrite IH in_cons /resolved.
case Eh: (h == i) => //=; case Es: (s == j) => /=; last by [].
by rewrite (eqP Es); case: ifP.
Qed.

Lemma computed_heights (self : tomography) (rows : seq nat) (M1 : tensor4)
    p q h s :
  foldl (fun M i =>
    foldl (fun M j =>
      let B :=
        if numericalProjection self then
          zernikeProjectionMatrixNumerical nZernike
            (mx_get (beta self) i j) (mx_get (t self) i j)
            (mx_get (angle self) i j)
        else
          zernikeProjectionMatrix nZernike
            (mx_get (beta self) i j) (mx_get (t self) i j)
            (mx_get (angle self) i j) in
      (fun p q h s : nat => if (h == i) && (s == j) then B p q
                            else M p q h s))
    M (range nStars)) M1 rows p q h s
  = if (h \in rows) && (s \in range nStars) then resolved self h s p q
    else M1 p q h s.
Proof.
elim: rows M1 => [|i rows IH] M1 /=; first by [].
rewrite IH in_cons computed_stars.
case Eh: (h == i) => /=; last by [].
by rewrite (eqP Eh); case: (i \in rows); case: (s \in range nStars).
Qed.

(** X1. The loops of [computeProjection] fill the block of every layer and
    star of the session with the matrix returned by the geometry resolver at
    the geometry of that pair, the numerical resolver when
    [numericalProjection] is set and the analytic one otherwise, and leave
    zero elsewhere. *)
Theorem computed_blocks (self : tomography) (p q h s : nat) :
  computed self p q h s
  = if (h < nHeight)%N && (s < nStars)%N then
      (if numericalProjection self then zernikeProjectionMatrixNumerical
       else zernikeProjectionMatrix)
        nZernike (mx_get (beta self) h s) (mx_get (t self) h s)
        (mx_get (angle self) h s) p q
    else 0.
Proof.
rewrite /computed computed_heights /range !mem_iota !add0n /= /resolved.
by case: (numericalProjection self).
Qed.

Lemma computeProjection_fresh (self : tomography) (files : seq npz) :
  MComputed self = false ->
  computeProjection self files
  = Ok (set_MStack (set_M self (computed self)) (stacked (computed self)),
        rcons files (Npz (computed self) (heights self) nStars nZernike
                         (fov self) (DTel self))).
Proof.
move=> HM; rewrite /computeProjection HM.
lazy beta iota zeta delta [negb].
by rewrite (@stackProjection_ok (computed self)).
Qed.

(** Reading the record of a session back gives, layer by layer, the tensor
    that was stored. *)
Lemma stacked_own_slice (self : tomography) (M0 : tensor4) :
  stacked (cached_slice self
             (Npz M0 (heights self) nStars nZernike (fov self) (DTel self)))
  = stacked M0.
Proof.
apply/matrixP => r c; rewrite !mxE /cached_slice cached_indices_own //=.
by rewrite nth_iota ?add0n // (div_proof c).
Qed.

(** X2. Round trip through the store.  When no file covers the
    configuration, the constructor computes the tensor, stacks it whatever
    [verbose] is, and appends one record to the store; a second construction
    of the same configuration on the store so extended reads that record
    back, leaves the store as it is, and (with [verbose=True]) holds the same
    stacked matrix. *)
Theorem store_round_trip (verbose_ : bool) (files : seq npz) :
  all (fun f => ~~ covers (start verbose_) f) files ->
  let M1 := computed (start verbose_) in
  let files' :=
    rcons files (Npz M1 (heights (start verbose_)) nStars nZernike
                     (fov (start verbose_)) (DTel (start verbose_))) in
  exists first second,
    [/\ init fov_ heights_ DTel_ verbose_ numericalProjection_ addPiston_ files
        = Ok (first, files'),
        MStack first = Some (stacked M1),
        init fov_ heights_ DTel_ true numericalProjection_ addPiston_ files'
        = Ok (second, files')
      & MStack second = MStack first].
Proof.
move=> Hmiss M1 files'.
have Hfirst :
    init fov_ heights_ DTel_ verbose_ numericalProjection_ addPiston_ files
    = Ok (set_MStack (set_M (start verbose_) M1) (stacked M1), files').
  by rewrite /init projectionExists_miss //= computeProjection_fresh.
have Hsecond :
    init fov_ heights_ DTel_ true numericalProjection_ addPiston_ files'
    = Ok (set_MStack
            (set_MComputed
               (set_M (start true)
                  (cached_slice (start true)
                     (Npz M1 (heights (start verbose_)) nStars nZernike
                          (fov (start verbose_)) (DTel (start verbose_)))))
               true)
            (stacked
               (cached_slice (start true)
                  (Npz M1 (heights (start verbose_)) nStars nZernike
                       (fov (start verbose_)) (DTel (start verbose_))))),
          files').
  rewrite /init /files' -cats1.
  rewrite (@projectionExists_hit (start true) files [::]) //.
  exact: (covers_own (start true) M1).
eexists; eexists; split; [exact: Hfirst | by [] | exact: Hsecond |].
by rewrite /= (stacked_own_slice (start true) M1).
Qed.

(** X3. The guard of [computeProjection].  When [MComputed] is set the call
    does nothing.  When it is unset the call computes, stacks and appends one
    record, but leaves the flag unset: a second call computes again and
    appends one more record. *)
Theorem computeProjection_guard (self : tomography) (files : seq npz) :
  (MComputed self -> computeProjection self files = Ok (self, files))
  /\ (MComputed self = false ->
      exists self' files',
        [/\ computeProjection self files = Ok (self', files'),
            MComputed self' = false,
            size files' = (size files).+1
          & exists self'' files'',
              computeProjection self' files' = Ok (self'', files'')
              /\ size files'' = (size files).+2]).
Proof.
split=> [HM|HM]; first by rewrite /computeProjection HM.
eexists; eexists; split; first exact: computeProjection_fresh.
- by [].
- by rewrite size_rcons.
- eexists; eexists; split; first exact: computeProjection_fresh.
  by rewrite !size_rcons.
Qed.

End StoreRoundTrip.

(** ** Reading a larger record *)

Section Superset.

Lemma indexed_filter (T : eqType) (x0 : T) (hs : seq T) (p : pred T) :
  map (nth x0 hs) (filter (fun k => p (nth x0 hs k)) (range (size hs)))
  = filter p hs.
Proof.
by rewrite -[in RHS](mkseq_nth x0 hs) /mkseq filter_map.
Qed.

(** X4. A record that stores more heights than the session asks for.  When
    the stored heights are pairwise distinct and the heights of the session
    appear among them in the stored order, the first test of
    [projectionExists] succeeds and layer [h] of the slice is the stored
    layer whose height is the height of layer [h] of the session. *)
Theorem superset_slice (self : tomography) (out : npz) :
  uniq (arr_1 out) -> subseq (heights self) (arr_1 out) ->
  size (cached_indices self out) = nHeight
  /\ forall (h : nat) p q s, (h < nHeight)%N ->
       nth 0 (arr_1 out) (nth 0%N (cached_indices self out) h)
       = nth 0 (heights self) h
       /\ cached_slice self out p q h s
          = arr_0 out p q (nth 0%N (cached_indices self out) h) s.
Proof.
move=> Hu Hsub.
have Hmap : map (nth 0 (arr_1 out)) (cached_indices self out) = heights self.
  rewrite /cached_indices (indexed_filter 0 (arr_1 out) (mem (heights self))).
  by rewrite -(subseq_uniqP Hu Hsub).
have Hsize : size (cached_indices self out) = nHeight.
  by rewrite -(size_map (nth 0 (arr_1 out))) Hmap size_tuple.
split=> // h p q s Hh; split=> //.
by rewrite -[in RHS]Hmap (nth_map 0%N) // Hsize.
Qed.

End Superset.

(** ** The forward operator, entry by entry *)

Section Forward.

Lemma big_blk (k n : nat) (F : 'I_(k * n) -> R) :
  \sum_c F c = \sum_(i < k) \sum_(q < n) F (blk i q).
Proof.
rewrite pair_big /=.
rewrite (reindex (fun ij : 'I_k * 'I_n => blk ij.1 ij.2)) //=.
exists (fun c => (div_ord c, mod_ord c)) => [[i q] _ | c _] /=.
  by rewrite div_blk mod_blk.
by rewrite blk_div_mod.
Qed.

Lemma stacked_blk (M0 : tensor4) (j : 'I_nStars) (p : 'I_nZernike)
    (i : 'I_nHeight) (q : 'I_nZernike) :
  stacked M0 (blk j p) (blk i q) = M0 p q i j.
Proof.
rewrite mxE.
have /(congr1 val) /= -> := div_blk j p.
have /(congr1 val) /= -> := div_blk i q.
have /(congr1 val) /= -> := mod_blk j p.
by have /(congr1 val) /= -> := mod_blk i q.
Qed.

(** X5. On a session whose stacked matrix comes from the tensor [M0] and
    whose realization is [orig], the forward operator returns the vector
    whose entry for the star [j] and the mode [p] is the sum, over the layers
    [i] and the modes [q], of [M0[p, q, i, j] * orig[q, i]]. *)
Theorem generateWFS_entries (self : tomography) (M0 : tensor4)
    (orig : 'M[R]_(nZernike, nHeight)) :
  MStack self = Some (stacked M0) ->
  dict_get (aStack self) "Original" = Some (flatten orig^T) ->
  exists b,
    generateWFS self = Ok b
    /\ forall (j : 'I_nStars) (p : 'I_nZernike),
         b (blk j p) 0
         = \sum_(i < nHeight) \sum_(q < nZernike) M0 p q i j * orig q i.
Proof.
move=> HM Ho; exists (stacked M0 *m flatten orig^T); split.
  by rewrite /generateWFS HM /= /dict_item Ho.
move=> j p; rewrite mxE big_blk; apply: eq_bigr => i _.
by apply: eq_bigr => q _; rewrite stacked_blk flatten_blk mxE.
Qed.

End Forward.

(** ** Fewer stars than layers *)

Section Underdetermined.

Lemma normal_singular (m n : nat) (A : 'M[R]_(m, n)) :
  (m < n)%N -> A^T *m A \notin unitmx.
Proof.
move=> Hmn; apply/negP => /mxrank_unit Hr.
have := leq_trans (mxrankM_maxr A^T A) (rank_leq_row A).
by rewrite Hr leqNgt Hmn.
Qed.

Lemma kernel_vector (m n : nat) (A : 'M[R]_(m, n)) :
  (m < n)%N -> exists d : 'cV[R]_n, d != 0 /\ A *m d = 0.
Proof.
move=> Hmn.
have Hk : kermx A^T != 0.
  rewrite -mxrank_eq0 mxrank_ker subn_eq0 -ltnNge.
  exact: leq_ltn_trans (rank_leq_col _) Hmn.
case/rowV0Pn: Hk => v /sub_kermxP Hv Hv0.
exists v^T; split; first by rewrite trmx_eq0.
by rewrite -[A]trmxK -trmx_mul Hv trmx0.
Qed.

(** X6. With fewer stars than layers (and at least one mode) the
    measurement does not determine the realization: the normal matrix
    [MStack.T @ MStack] is singular, and there is a vector of coefficients
    [d], not zero, such that the forward operator measures the same on the
    realizations [x] and [x + d], for every [x] (in exact arithmetic). *)
Theorem underdetermined_measurement (self : tomography)
    (MS : 'M[R]_(nStars * nZernike, nHeight * nZernike)) :
  (nStars < nHeight)%N -> (0 < nZernike)%N -> MStack self = Some MS ->
  MS^T *m MS \notin unitmx
  /\ exists d : 'cV[R]_(nHeight * nZernike),
       d != 0
       /\ forall x,
            generateWFS
              (set_aStack self (dict_set (aStack self) "Original" (x + d)))
            = Ok (MS *m x)
            /\ generateWFS
                 (set_aStack self (dict_set (aStack self) "Original" x))
               = Ok (MS *m x).
Proof.
move=> Hsh Hn HM.
have Hlt : (nStars * nZernike < nHeight * nZernike)%N by rewrite ltn_pmul2r.
split; first exact: normal_singular.
have [d [Hd0 Hd]] := kernel_vector MS Hlt.
exists d; split=> // x.
by rewrite /generateWFS /= HM /= !dict_item_set !bindE mulmxDr Hd addr0.
Qed.

End Underdetermined.

(** ** The regularized solver over real scalars *)

Section Regularized.

Hypothesis scalars_real : forall x : R, x \is Num.real.

Lemma block_diagM (k n : nat) (X Y : 'M[R]_n) :
  block_diag [tuple X | i < k] *m block_diag [tuple Y | i < k]
  = block_diag [tuple X *m Y | i < k].
Proof.
apply/matrixP => r c; rewrite !mxE big_blk !tnth_mktuple.
have Hrest (i : 'I_k) : i != div_ord r ->
    \sum_(q < n) block_diag [tuple X | _ < k] r (blk i q)
                 * block_diag [tuple Y | _ < k] (blk i q) c = 0.
  move=> Hi; apply: big1 => q _.
  by rewrite !mxE div_blk eq_sym (negbTE Hi) mul0r.
rewrite (bigD1 (div_ord r)) //= (big1 _ _ _ Hrest) addr0.
case Erc: (div_ord r == div_ord c).
  rewrite mxE; apply: eq_bigr => q _.
  by rewrite !mxE !tnth_mktuple !div_blk !mod_blk eqxx Erc.
apply: big1 => q _.
by rewrite !mxE !tnth_mktuple !div_blk !mod_blk eqxx Erc mulr0.
Qed.

Lemma block_diag_id (k n : nat) :
  block_diag [tuple (1%:M : 'M[R]_n) | i < k] = 1%:M.
Proof.
apply/matrixP => r c; rewrite mxE tnth_mktuple !mxE.
have -> : (r == c) = (div_ord r == div_ord c) && (mod_ord r == mod_ord c).
  apply/eqP/andP => [-> //|[/eqP Hd /eqP Hm]].
  by rewrite -(blk_div_mod r) -(blk_div_mod c) Hd Hm.
by case: (div_ord r == div_ord c).
Qed.

Lemma block_diag_unit (k n : nat) (X : 'M[R]_n) :
  X \in unitmx -> block_diag [tuple X | i < k] \in unitmx.
Proof.
move=> HX.
have H1 : block_diag [tuple X | i < k] *m block_diag [tuple invmx X | i < k]
          = 1%:M.
  by rewrite block_diagM mulmxV // block_diag_id.
by case: (mulmx1_unit H1).
Qed.

Lemma gram_entry (n : nat) (v : 'rV[R]_n) :
  (v *m v^T) 0 0 = \sum_j v 0 j ^+ 2.
Proof. by rewrite mxE; apply: eq_bigr => j _; rewrite mxE expr2. Qed.

Lemma gram_ge0 (n : nat) (v : 'rV[R]_n) : 0 <= (v *m v^T) 0 0.
Proof.
rewrite gram_entry; apply: sumr_ge0 => j _.
by rewrite real_exprn_even_ge0.
Qed.

Lemma gram_eq0 (n : nat) (v : 'rV[R]_n) : (v *m v^T) 0 0 = 0 -> v = 0.
Proof.
rewrite gram_entry => H0; apply/rowP => j; rewrite mxE.
have Hge (i : 'I_n) : true -> 0 <= v 0 i ^+ 2.
  by move=> _; rewrite real_exprn_even_ge0.
have Hj : v 0 j ^+ 2 = 0 by apply: (psumr_eq0P Hge H0).
by apply/eqP; rewrite -sqrf_eq0 Hj.
Qed.

(** A normal matrix plus the square of an invertible matrix is invertible. *)
Lemma gram_sum_unit (m n : nat) (A : 'M[R]_(m, n)) (C : 'M[R]_n) :
  C \in unitmx -> A^T *m A + C^T *m C \in unitmx.
Proof.
move=> HC; rewrite -row_free_unit -kermx_eq0.
apply/eqP/row_matrixP => i; rewrite row0.
set u := row i _.
have Hu : u *m (A^T *m A + C^T *m C) = 0.
  by rewrite /u -row_mul mulmx_ker row0.
have Hq : ((u *m A^T) *m (u *m A^T)^T) 0 0
          + ((u *m C^T) *m (u *m C^T)^T) 0 0 = 0.
  have: (u *m (A^T *m A + C^T *m C) *m u^T) 0 0 = 0.
    by rewrite Hu mul0mx mxE.
  by rewrite mulmxDr mulmxDl mxE !trmx_mul !trmxK !mulmxA.
have /eqP := Hq; rewrite paddr_eq0 ?gram_ge0 // => /andP [_ /eqP Hw].
have Hw0 := gram_eq0 Hw.
have -> : u = u *m C^T *m invmx C^T by rewrite mulmxK // unitmx_tr.
by rewrite Hw0 mul0mx.
Qed.

(** X7. Over real scalars, when the covariance matrix is invertible the
    regularized normal matrix is invertible whatever the stacked matrix is
    (also with fewer stars than layers), and the regularized solver returns
    for every measurement. *)
Theorem solveSVD_regularized_returns (self : tomography)
    (b : 'cV[R]_(nStars * nZernike))
    (MS : 'M[R]_(nStars * nZernike, nHeight * nZernike))
    (cov : 'M[R]_nZernike) :
  MStack self = Some MS -> covariance self = Some cov -> cov \in unitmx ->
  let C := block_diag [tuple invmx cov | i < nHeight] in
  MS^T *m MS + C^T *m C \in unitmx
  /\ exists self', solveSVD self b true = Ok self'.
Proof.
move=> HM Hcov Hu C.
have HC : MS^T *m MS + C^T *m C \in unitmx.
  by apply: gram_sum_unit; apply: block_diag_unit; rewrite unitmx_inv.
by split=> //; eexists; apply: (solveSVD_tikhonov _ HM Hcov Hu HC).
Qed.

End Regularized.

(** ** The proximal operator per mode *)

Section Proximal.

Lemma mx_get_ord (m n : nat) (A : 'M[R]_(m, n)) (i : 'I_m) (j : 'I_n) :
  mx_get A i j = A i j.
Proof. by rewrite /mx_get !valK. Qed.

Lemma prox_columns (coef : 'M[R]_(nHeight, nZernike)) (theta : R)
    (cols : seq nat) (A : 'M[R]_(nHeight, nZernike)) h (c : 'I_nZernike) :
  foldl (fun coefOut i => set_col coefOut i (prox_l1 (col_at coef i) theta))
        A cols h c
  = if (c : nat) \in cols then prox_l1 (col_at coef c) theta h 0 else A h c.
Proof.
elim: cols A => [|i cols IH] A //=.
rewrite IH in_cons mxE.
by case Ec: ((c : nat) == i) => //=; rewrite (eqP Ec); case: ifP.
Qed.

(** X8. When the imported proximal operator acts entry by entry (as the
    soft threshold does), applying it mode by mode across the heights gives
    the same vector as applying it to the whole vector at once. *)
Theorem proxgHeight_proxg (mu : R) (x : 'cV[R]_(nHeight * nZernike)) (t : R) :
  elementwise prox_l1 -> _proxgHeight mu x t = _proxg mu x t.
Proof.
case=> s Hs; apply/colP => k.
rewrite /_proxgHeight /_proxg mxE prox_columns in_range !Hs.
by rewrite mxE mx_get_ord mxE blk_div_mod.
Qed.

End Proximal.

(** ** What the solvers read and how they compose *)

Section SolverReads.

Implicit Type MS : 'M[R]_(nStars * nZernike, nHeight * nZernike).

Lemma dict_get_set (V : Type) (d : dict V) (k k' : string) (v : V) :
  dict_get (dict_set d k v) k'
  = if String.eqb k' k then Some v else dict_get d k'.
Proof.
case E: (String.eqb k' k); last by rewrite dict_get_set_other.
by move/String.eqb_spec: E => ->; rewrite dict_get_set_same.
Qed.

(** X9. The sparse solver needs a realization under [Original] only for its
    shape: without one it raises [KeyError] (where the unregularized
    least-squares solver needs none), and with one its estimate does not
    depend on the values stored there. *)
Theorem solveFASTA_original (self1 self2 : tomography)
    (b : 'cV[R]_(nStars * nZernike)) MS
    (orig1 orig2 : 'cV[R]_(nHeight * nZernike)) :
  MStack self1 = Some MS -> MStack self2 = Some MS ->
  dict_get (aStack self1) "Original" = Some orig1 ->
  dict_get (aStack self2) "Original" = Some orig2 ->
  (exists out1 out2,
     [/\ solveFASTA self1 b = Ok out1, solveFASTA self2 b = Ok out2,
         dict_get (aStack out1) "L1" = dict_get (aStack out2) "L1"
       & dict_get (a out1) "L1" = dict_get (a out2) "L1"])
  /\ (forall self : tomography,
        MStack self = Some MS -> dict_get (aStack self) "Original" = None ->
        solveFASTA self b = Raise KeyError).
Proof.
move=> H1 H2 Ho1 Ho2; split.
  eexists; eexists; split;
    [exact: (solveFASTA_ok _ H1 Ho1) | exact: (solveFASTA_ok _ H2 Ho2) | |].
    by rewrite /= !dict_get_set_same.
  by rewrite /= !dict_get_set_same.
by move=> self HM Ho; rewrite /solveFASTA HM /= /dict_item /= Ho.
Qed.

(** X10. The two solvers commute: solving by least squares and then by the
    sparse solver leaves under every key of [self.a] and [self.aStack] what
    solving in the other order leaves, and the same stacked matrix and
    covariance. *)
Theorem solvers_commute (self : tomography)
    (b : 'cV[R]_(nStars * nZernike)) MS
    (orig : 'cV[R]_(nHeight * nZernike)) :
  MStack self = Some MS -> MS^T *m MS \in unitmx ->
  dict_get (aStack self) "Original" = Some orig ->
  exists svd_l1 l1_svd,
    [/\ (s <- solveSVD self b false ;; solveFASTA s b) = Ok svd_l1,
        (s <- solveFASTA self b ;; solveSVD s b false) = Ok l1_svd,
        forall k, dict_get (a svd_l1) k = dict_get (a l1_svd) k,
        forall k, dict_get (aStack svd_l1) k = dict_get (aStack l1_svd) k
      & MStack svd_l1 = MStack l1_svd
        /\ covariance svd_l1 = covariance l1_svd].
Proof.
move=> HM Hu Ho.
eexists; eexists; split.
- rewrite (solveSVD_plain _ HM Hu) bindE.
  rewrite (@solveFASTA_ok _ b MS orig) //.
  by rewrite /= dict_get_set_other.
- rewrite (solveFASTA_ok _ HM Ho) bindE.
  by rewrite (@solveSVD_plain _ b MS).
- move=> k; rewrite /= !dict_get_set.
  by case E1: (String.eqb k "L1"); case E2: (String.eqb k "SVD") => //;
     move/String.eqb_spec: E1 E2 => ->.
- move=> k; rewrite /= !dict_get_set.
  by case E1: (String.eqb k "L1"); case E2: (String.eqb k "SVD") => //;
     move/String.eqb_spec: E1 E2 => ->.
- by [].
Qed.

End SolverReads.

(** ** The covariance depends on ratios of lengths only *)

Section Scaling.

(** X11. The covariance matrices depend on the telescope diameter, the Fried
    parameter and the outer scale only through the quotients [DTel / r0] and
    [DTel / L0]: multiplying the three lengths by the same factor different
    from zero gives the same matrix, for both generators. *)
Theorem covariance_scaling (self self' : tomography) (c r0 L0 : R) :
  c != 0 -> r0 != 0 -> L0 != 0 ->
  noll0 self' = noll0 self -> DTel self' = c * DTel self ->
  kolmogorov_covariance self' (c * r0) = kolmogorov_covariance self r0
  /\ vonKarman_covariance self' (c * r0) (c * L0)
     = vonKarman_covariance self r0 L0.
Proof.
move=> Hc Hr0 HL0 Hn HD.
have Hq : c * DTel self / (c * r0) = DTel self / r0.
  by rewrite -mulf_div divff // mul1r.
have Hx : pi * (c * DTel self) / (c * L0) = pi * DTel self / L0.
  by rewrite (mulrCA pi) -mulf_div divff // mul1r.
split.
  rewrite !kolmogorov_covariance_ok ?mulf_neq0 //; congr Ok.
  by apply/matrixP => i j; rewrite !mxE /selected Hn HD Hq.
rewrite !vonKarman_covariance_ok ?mulf_neq0 //; congr Ok.
by apply/matrixP => i j; rewrite !mxE /selected /vonKarman_series Hn HD Hq Hx.
Qed.

End Scaling.

(** ** The two dictionaries stay in step *)

Section Invariant.

Lemma consistent_set (self self' : tomography) (k : string)
    (A : 'M[R]_(nZernike, nHeight)) :
  a self' = dict_set (a self) k A ->
  aStack self' = dict_set (aStack self) k (flatten A^T) ->
  consistent self -> consistent self'.
Proof.
move=> Ha Hs Hc k'; rewrite Ha Hs !dict_get_set.
by case: (String.eqb k' k) => //; exact: Hc.
Qed.

(** X12. Every method that writes a realization or an estimate keeps the two
    dictionaries in step: if, before the call, each array of [self.aStack] is
    the flattened transpose of the array of [self.a] under the same key, then
    so it is after a returning call of either generator or either solver. *)
Theorem consistent_preserved (self : tomography) (g : rng) (r0 L0 : R)
    (keepOnly : option (seq R)) (b : 'cV[R]_(nStars * nZernike))
    (regularize : bool) :
  consistent self ->
  [/\ forall self' g',
        generateTurbulentZernikesKolmogorov self g r0 keepOnly
        = Ok (self', g') -> consistent self',
      forall self' g',
        generateTurbulentZernikesVonKarman self g r0 L0 = Ok (self', g') ->
        consistent self',
      forall self', solveSVD self b regularize = Ok self' -> consistent self'
    & forall self', solveFASTA self b = Ok self' -> consistent self'].
Proof.
move=> Hc; split.
- move=> self' g'; rewrite /generateTurbulentZernikesKolmogorov.
  case: (kolmogorov_covariance self r0) => [cov|e] //; rewrite bindE.
  case: (multivariate_normal _ _ _) => sample g1 [<- _].
  exact: (consistent_set _ _ Hc).
- move=> self' g'; rewrite /generateTurbulentZernikesVonKarman.
  case: (vonKarman_covariance self r0 L0) => [cov|e] //; rewrite bindE.
  case: (multivariate_normal _ _ _) => sample g1 [<- _].
  exact: (consistent_set _ _ Hc).
- move=> self'; rewrite /solveSVD.
  case: (if regularize then _ else _) => [AInv|e] //=.
  case: (MStack self) => [MS|] //=.
  rewrite dict_item_set /= => -[<-].
  apply: (consistent_set _ _ Hc); first by reflexivity.
  by rewrite /= trmxK flatten_reshape.
- move=> self'; rewrite /solveFASTA.
  case: (MStack self) => [MS|] //=.
  rewrite /dict_item /=.
  case: (dict_get (aStack self) "Original") => [orig|] //=.
  rewrite dict_get_set_same => -[<-].
  apply: (consistent_set _ _ Hc); first by reflexivity.
  by rewrite /= trmxK flatten_reshape.
Qed.

End Invariant.

(** ** The geometry of the footprints *)

Section Geometry.

Variables (fov_ : R) (heights_ : nHeight.-tuple R) (DTel_ : R).
Variables (verbose_ numericalProjection_ addPiston_ : bool).

Local Notation start :=
  (init_state fov_ heights_ DTel_ verbose_ numericalProjection_ addPiston_).

(** X13. The geometry set by the constructor: for every layer whose
    metapupil diameter is not zero, the offset [t] of a footprint and the
    inverse of its scaling [beta] add up to one (the footprint of the
    telescope touches the edge of the metapupil), for every star; and on a
    layer at height zero the offset is zero and the scaling is one. *)
Theorem footprint_geometry (i : 'I_nHeight) (j : 'I_nStars) :
  DTel_ != 0 ->
  (tnth (DMetapupil start) i != 0 -> t start i j + (beta start i j)^-1 = 1)
  /\ (tnth heights_ i = 0 -> t start i j = 0 /\ beta start i j = 1).
Proof.
move=> HD; rewrite /init_state; lazy zeta beta iota delta [t beta DMetapupil].
rewrite !mxE !tnth_map.
set f := fov_ / _; set h := tnth heights_ i * _.
split=> [HM|H0].
  by rewrite invf_div -mulrDl [h * f + _]addrC divff.
by rewrite /h H0 !mul0r addr0 divff.
Qed.

End Geometry.

(** ** An empty keep-list *)

Section EmptyKeep.

Implicit Type MS : 'M[R]_(nStars * nZernike, nHeight * nZernike).

Lemma flatten0 (m n : nat) : flatten (0 : 'M[R]_(m, n)) = 0.
Proof. by apply/colP => k; rewrite !mxE. Qed.

Local Arguments keep_layers : simpl never.

(** X14. An empty keep-list is not the absence of a keep-list: with
    [keepOnly=[]] the Kolmogorov generator zeroes every layer, and the
    forward operator then measures the zero vector, whereas with
    [keepOnly=None] the realization is the draw itself, transposed. *)
Theorem empty_keep_list (self : tomography) (g : rng) (r0 : R) MS :
  r0 != 0 -> MStack self = Some MS ->
  let draw :=
    multivariate_normal g (const_mx 0) (kolmogorov_matrix self r0) in
  (exists self',
     [/\ generateTurbulentZernikesKolmogorov self g r0 (Some [::])
         = Ok (self', draw.2),
         dict_get (a self') "Original" = Some 0
       & generateWFS self' = Ok 0])
  /\ (exists self',
        [/\ generateTurbulentZernikesKolmogorov self g r0 None
            = Ok (self', draw.2),
            dict_get (a self') "Original" = Some (draw.1)^T
          & generateWFS self' = Ok (MS *m flatten draw.1)]).
Proof.
move=> Hr0 HM; rewrite /generateTurbulentZernikesKolmogorov.
rewrite kolmogorov_covariance_ok // !bindE.
case: (multivariate_normal _ _ _) => sample g' /=.
have H0 (s : tomography) : keep_layers s (Some [::]) sample^T = 0.
  by apply/matrixP => p c; rewrite keep_layers_ok in_nil mxE.
split; eexists; split; try by reflexivity.
- by rewrite /= dict_get_set_same H0.
- by rewrite /generateWFS /= HM /= dict_item_set H0 trmx0 flatten0 bindE mulmx0.
- by rewrite /= dict_get_set_same.
- by rewrite /generateWFS /= HM /= dict_item_set bindE /keep_layers trmxK.
Qed.

End EmptyKeep.

(** ** The constructor always returns *)

Section Construction.

Variables (fov_ : R) (heights_ : nHeight.-tuple R) (DTel_ : R).
Variables (numericalProjection_ addPiston_ : bool).

Local Notation start verbose_ :=
  (init_state fov_ heights_ DTel_ verbose_ numericalProjection_ addPiston_).

Lemma has_split (T : Type) (p : pred T) (s : seq T) :
  has p s ->
  exists pre out post,
    [/\ s = pre ++ out :: post, all (fun x => ~~ p x) pre & p out].
Proof.
elim: s => [|x s IH] //=.
case Hx: (p x) => /=; first by move=> _; exists [::], x, s; split.
move/IH => [pre [out [post [-> Hpre Hout]]]].
by exists (x :: pre), out, post; split=> //=; rewrite Hx.
Qed.

Lemma init_miss (verbose_ : bool) (files : seq npz) :
  all (fun f => ~~ covers (start verbose_) f) files ->
  init fov_ heights_ DTel_ verbose_ numericalProjection_ addPiston_ files
  = Ok (set_MStack (set_M (start verbose_) (computed (start verbose_)))
                   (stacked (computed (start verbose_))),
        rcons files
          (Npz (computed (start verbose_)) (heights (start verbose_)) nStars
               nZernike (fov (start verbose_)) (DTel (start verbose_)))).
Proof.
by move=> Hmiss; rewrite /init projectionExists_miss //= computeProjection_fresh.
Qed.

Lemma init_hit (verbose_ : bool) (pre post : seq npz) (out : npz) :
  all (fun f => ~~ covers (start verbose_) f) pre ->
  covers (start verbose_) out ->
  init fov_ heights_ DTel_ verbose_ numericalProjection_ addPiston_
       (pre ++ out :: post)
  = Ok (if verbose_ then
          set_MStack
            (set_MComputed
               (set_M (start verbose_) (cached_slice (start verbose_) out))
               true)
            (stacked (cached_slice (start verbose_) out))
        else set_M (start verbose_) (cached_slice (start verbose_) out),
        pre ++ out :: post).
Proof.
move=> Hpre Hout; rewrite /init (projectionExists_hit _ Hpre Hout).
by case: verbose_ {Hpre Hout}.
Qed.

(** X15. What a construction that returns leaves behind.  The store is as
    it was when one of its files covers the configuration, and has exactly
    one record more, the one of the computed tensor, otherwise; the session
    holds a projection tensor and two empty dictionaries; and it lacks the
    stacked matrix exactly when a file covered the configuration and
    [verbose] is off. *)
Theorem init_outcome (verbose_ : bool) (files files' : seq npz)
    (self : tomography) :
  init fov_ heights_ DTel_ verbose_ numericalProjection_ addPiston_ files
  = Ok (self, files') ->
  [/\ files' = if has (covers (start verbose_)) files then files
               else rcons files
                      (Npz (computed (start verbose_))
                           (heights (start verbose_)) nStars nZernike
                           (fov (start verbose_)) (DTel (start verbose_))),
      exists M0, M self = Some M0,
      (MStack self == None)
      = has (covers (start verbose_)) files && ~~ verbose_
    & a self = [::] /\ aStack self = [::]].
Proof.
case Hhas: (has _ files).
  have [pre [out [post [Hfiles Hpre Hout]]]] := has_split Hhas.
  rewrite Hfiles (init_hit _ Hpre Hout) => -[<- <-].
  by case: verbose_ {Hhas Hpre Hout}; split=> //; eexists.
have Hmiss : all (fun f => ~~ covers (start verbose_) f) files.
  by move: (all_predC (covers (start verbose_)) files); rewrite Hhas.
by rewrite (init_miss Hmiss) => -[<- <-]; split=> //; eexists.
Qed.

(** The three shapes of a constructed session: a file read without stacking,
    a file read and stacked, a tensor computed and stacked. *)
Lemma init_shape (verbose_ : bool) (files : seq npz) :
  exists M0 self files',
    init fov_ heights_ DTel_ verbose_ numericalProjection_ addPiston_ files
    = Ok (self, files')
    /\ [\/ self = set_M (start verbose_) M0,
           self = set_MStack (set_MComputed (set_M (start verbose_) M0) true)
                             (stacked M0)
         | self = set_MStack (set_M (start verbose_) M0) (stacked M0)].
Proof.
case Hhas: (has (covers (start verbose_)) files).
  have [pre [out [post [Hfiles Hpre Hout]]]] := has_split Hhas.
  exists (cached_slice (start verbose_) out).
  case: verbose_ Hpre Hout {Hhas} => Hpre Hout.
    eexists; eexists; split.
      by rewrite /init Hfiles (projectionExists_hit _ Hpre Hout).
    by constructor 2.
  eexists; eexists; split.
    by rewrite /init Hfiles (projectionExists_hit _ Hpre Hout).
  by constructor 1.
have Hmiss : all (fun f => ~~ covers (start verbose_) f) files.
  by move: (all_predC (covers (start verbose_)) files); rewrite Hhas.
exists (computed (start verbose_)).
exists (set_MStack (set_M (start verbose_) (computed (start verbose_)))
                   (stacked (computed (start verbose_)))).
eexists; split; last by constructor 3.
by rewrite /init projectionExists_miss //= computeProjection_fresh.
Qed.

(** X16. A session just constructed holds no realization and no
    covariance: whatever the store, the forward operator and the sparse
    solver fail on it ([KeyError] for the missing key [Original], or
    [AttributeError] when the stacked matrix is missing too), and the
    regularized least-squares solver fails with [AttributeError]. *)
Theorem fresh_session_errors (verbose_ : bool) (files : seq npz)
    (b : 'cV[R]_(nStars * nZernike)) :
  exists self files',
    [/\ init fov_ heights_ DTel_ verbose_ numericalProjection_ addPiston_ files
        = Ok (self, files'),
        generateWFS self
        = Raise (if MStack self is Some _ then KeyError else AttributeError),
        solveFASTA self b
        = Raise (if MStack self is Some _ then KeyError else AttributeError)
      & solveSVD self b true = Raise AttributeError].
Proof.
have [M0 [self [files' [Hinit Hself]]]] := init_shape verbose_ files.
exists self, files'; split=> //.
- by case: Hself => ->.
- by case: Hself => ->.
- by case: Hself => ->.
Qed.

End Construction.

(** ** The problem handed to the sparse solver *)

Section Sparse.

Implicit Type MS : 'M[R]_(nStars * nZernike, nHeight * nZernike).

(** X17. The sparse solver is called with a pair of adjoint operators (the
    stacked matrix and its transpose), starts from the zero vector, and its
    data term has a gradient that vanishes exactly at the measurement. *)
Theorem fasta_operators (self : tomography) (b : 'cV[R]_(nStars * nZernike))
    MS (orig : 'cV[R]_(nHeight * nZernike)) :
  MStack self = Some MS -> dict_get (aStack self) "Original" = Some orig ->
  exists args out,
    [/\ solveFASTA self b = Ok out,
        dict_get (aStack out) "L1" = Some (fasta_optimize args),
        forall x y, (fa_A args x)^T *m y = x^T *m fa_At args y,
        fa_x0 args = 0
      & forall x, (fa_gradf args x == 0) = (x == b)].
Proof.
move=> HM Ho.
exists (fasta_call MS MS^T b (norm2 MS ^+ 2) (10%:R ^- 5) (const_mx 0)).
eexists; split; first exact: (solveFASTA_ok _ HM Ho).
- by rewrite /= dict_get_set_same.
- by move=> x y; rewrite /= trmx_mul mulmxA.
- by [].
- by move=> x; rewrite /= subr_eq0.
Qed.

(** X18. The penalty [_g] of the sparse solver, for a positive weight, is
    never negative and vanishes at the zero vector only. *)
Theorem g_definite (mu : R) (x : 'cV[R]_(nHeight * nZernike)) :
  0 < mu -> 0 <= _g mu x /\ (_g mu x == 0) = (x == 0).
Proof.
move=> Hmu.
have Hge (i : 'I_(nHeight * nZernike)) : true -> 0 <= `|x i 0| by [].
have Hmu0 : (mu == 0) = false by apply/negbTE; rewrite -normr_gt0 gtr0_norm.
split; first by apply: mulr_ge0; [rewrite -[mu]gtr0_norm | exact: sumr_ge0].
rewrite /_g mulf_eq0 Hmu0 /= /norm_1 psumr_eq0 //.
apply/allP/eqP => [H|-> i _]; last by rewrite mxE normr0 eqxx.
apply/colP => i; rewrite mxE; apply/eqP.
by rewrite -normr_eq0; apply: (H i); rewrite mem_index_enum.
Qed.

End Sparse.

End Tomography.

(** * A concrete session

    The theorems above hold for every field of scalars and every
    interpretation of the imported functions.  The instance below, over the
    rationals, is the concrete input at which their hypotheses are checked. *)

Module Sample.

(** Stand-ins for [np.pi], [np.sqrt], [scipy.special.gamma], the power
    operator and the spectral norm. *)
Definition pi : rat := 355%:R / 113%:R.
Definition sqrt (x : rat) : rat := x.
Definition gamma (x : rat) : rat := x.
Definition pow (x y : rat) : rat := x.
Definition norm2 (m n : nat) (A : 'M[rat]_(m, n)) : rat := 1.

(** The usual Noll ordering of the Zernike modes, standing for
    [wavefront.nollIndices]. *)
Definition nollIndices (j : nat) : int * int :=
  let n := find (fun n => j <= (n + 1) * (n + 2) %/ 2)%N (iota 0 40) in
  let mprime := (j - n * (n + 1) %/ 2)%N in
  let m := if ~~ odd n then (2 * (mprime %/ 2))%N
           else (1 + 2 * ((mprime - 1) %/ 2))%N in
  (n%:Z, if odd j then - m%:Z else m%:Z).

(** One star, two modes, one layer; the generator of random numbers has one
    state and draws the matrix of ones. *)
Definition multivariate_normal (g : unit) (mean : 'rV[rat]_2) (cov : 'M[rat]_2)
  : 'M[rat]_(1, 2) * unit :=
  (const_mx 1, g).

Definition prox_l1 (n : nat) (x : 'cV[rat]_n) (t : rat) : 'cV[rat]_n := x.

Definition fasta_optimize (call : fasta_args rat 1 2 1) : 'cV[rat]_(1 * 2) :=
  fa_x0 call.

Definition projector (n : nat) (beta t angle : rat) (p q : nat) : rat :=
  (p == q)%:R.

(** The session before the store is consulted: field of view 60 arcsec, one
    layer at 0 km, a telescope of 4 m. *)
Definition start (verbose_ : bool) : tomography rat 1 2 1 :=
  init_state pi 1 2 60%:R [tuple 0] 4%:R verbose_ true false.

(** The same with a negative diameter. *)
Definition negative : tomography rat 1 2 1 :=
  init_state pi 1 2 60%:R [tuple 0] (- 4%:R) true true false.

(** A session holding a stacked matrix, a covariance and a realization. *)
Definition session (MS : 'M[rat]_(1 * 2, 1 * 2)) (cov : 'M[rat]_2)
    (orig : 'M[rat]_(2, 1)) : tomography rat 1 2 1 :=
  let self := set_covariance (set_MStack (start true) MS) cov in
  set_aStack (set_a self (dict_set (a self) "Original" orig))
             (dict_set (aStack self) "Original" (flatten orig^T)).

(** The record stored for the configuration of [start]. *)
Definition record : npz rat :=
  Npz (fun p q h s => (p == q)%:R) (heights (start true)) 1 2
      (fov (start true)) (DTel (start true)).

(** The two generators, the sparse solver and the constructor at the
    sample interpretation. *)
Definition kolmogorov (self : tomography rat 1 2 1) :=
  generateTurbulentZernikesKolmogorov
    pi sqrt gamma pow nollIndices multivariate_normal self.

Definition vonKarman (self : tomography rat 1 2 1) :=
  generateTurbulentZernikesVonKarman
    pi sqrt gamma pow nollIndices multivariate_normal self.

Definition fasta (self : tomography rat 1 2 1) :=
  solveFASTA sqrt norm2 prox_l1 fasta_optimize self.

Definition construct := @init rat pi 1 2 1 projector projector.

Definition r0 : rat := 3%:R / 20%:R.
Definition L0 : rat := 10%:R.

(** A record that stores the layer of the session and one more. *)
Definition superset : npz rat :=
  Npz (fun p q h s => (p == q)%:R) (rcons (heights (start true)) 1) 1 2
      (fov (start true)) (DTel (start true)).

(** One star and two layers: fewer measurements than unknowns. *)
Definition underdetermined : tomography rat 1 1 2 :=
  set_MStack (init_state pi 1 1 60%:R [tuple 0; 1] 4%:R true true false)
             (const_mx 1).

(** The sample telescope with twice the diameter. *)
Definition doubled : tomography rat 1 2 1 :=
  init_state pi 1 2 60%:R [tuple 0] 8%:R true true false.

End Sample.

(** ** The hypotheses of the theorems at the sample session *)

Section Witnesses.

Local Open Scope ring_scope.

Lemma sample_r0_neq0 : Sample.r0 != 0.
Proof. by rewrite /Sample.r0 mulf_neq0 ?invr_neq0 ?pnatr_eq0. Qed.

Lemma sample_L0_neq0 : Sample.L0 != 0.
Proof. by rewrite /Sample.L0 pnatr_eq0. Qed.

Lemma block_diag1 (F : fieldType) (k n : nat) :
  block_diag [tuple (1%:M : 'M[F]_n) | i < k] = 1%:M.
Proof.
apply/matrixP => r c; rewrite mxE tnth_mktuple !mxE.
have -> : (r == c) = (div_ord r == div_ord c) && (mod_ord r == mod_ord c).
  apply/eqP/andP => [-> //|[/eqP Hd /eqP Hm]].
  by rewrite -(blk_div_mod r) -(blk_div_mod c) Hd Hm.
by case: (div_ord r == div_ord c).
Qed.

Lemma selection_rule_witness :
  [/\ Sample.r0 != 0, Sample.L0 != 0
     & builds (Sample.kolmogorov (Sample.start true) tt Sample.r0 None)
              (selection_rule Sample.nollIndices (Sample.start true))
       /\ builds (Sample.vonKarman (Sample.start true) tt Sample.r0 Sample.L0)
                 (selection_rule Sample.nollIndices (Sample.start true))].
Proof.
split; [exact: sample_r0_neq0 | exact: sample_L0_neq0 |].
exact: (selection_rule_holds _ _ _ _ _ _ _ _ _ sample_r0_neq0 sample_L0_neq0).
Defined.

Lemma covariance_symmetry_witness :
  [/\ Sample.r0 != 0, Sample.L0 != 0
     & builds (Sample.kolmogorov (Sample.start true) tt Sample.r0 None)
              (fun C => forall i j, C i j = C j i)
       /\ builds (Sample.vonKarman (Sample.start true) tt Sample.r0 Sample.L0)
                 (fun C => forall i j : 'I_2,
                    C i j - C j i =
                    if selected Sample.nollIndices (Sample.start true) i j then
                      vonKarman_asymmetry Sample.pi Sample.sqrt Sample.gamma
                        Sample.pow (DTel (Sample.start true)) Sample.r0
                        Sample.L0
                        (Sample.nollIndices (i + noll0 (Sample.start true))).1
                        (Sample.nollIndices (i + noll0 (Sample.start true))).2
                        (Sample.nollIndices (j + noll0 (Sample.start true))).1
                    else 0)].
Proof.
split; [exact: sample_r0_neq0 | exact: sample_L0_neq0 |].
exact: (covariance_symmetry _ _ _ _ _ _ _ _ _ sample_r0_neq0 sample_L0_neq0).
Defined.

(** The modes of Noll indices 2 and 8 (positions 0 and 6 without piston)
    have the azimuthal frequency 1 and the radial degrees 1 and 3: the pair
    is selected and its two orders give different [t5]. *)
Lemma noll_2_8 :
  [/\ Sample.nollIndices 2 = (1%:Z, 1%:Z), Sample.nollIndices 8 = (3%:Z, 1%:Z)
     & even (0%:Z - 6%:Z)].
Proof. by []. Qed.

Lemma stacked_blocks_witness :
  let M0 : tensor4 rat := fun p q h s => (p == q)%:R in
  let self := set_M (Sample.start true) M0 in
  M self = Some M0
  /\ exists MS : 'M[rat]_(1 * 2, 1 * 2),
       [/\ stackProjection self = Ok (set_MStack self MS),
           MStack (set_MStack self MS) = Some MS,
           forall (j : 'I_1) (i : 'I_1) (p q : 'I_2),
             MS (blk j p) (blk i q) = M0 p q i j
         & forall (orig : 'M[rat]_(2, 1)) (i : 'I_1) (p : 'I_2),
             flatten orig^T (blk i p) 0 = orig p i].
Proof.
move=> M0 self; split; first by [].
exact: (@stacked_blocks _ _ _ _ M0 self (erefl _)).
Defined.

Lemma sample_unit : (1%:M : 'M[rat]_(1 * 2))^T *m 1%:M \in unitmx.
Proof. by rewrite trmx1 mulmx1 unitmx1. Qed.

Lemma noiseless_recovery_witness :
  let orig : 'M[rat]_(2, 1) := const_mx 1 in
  let self := Sample.session 1%:M 1%:M orig in
  (1%:M : 'M[rat]_(1 * 2))^T *m 1%:M \in unitmx
  /\ exists b inversion',
       [/\ generateWFS self = Ok b,
           b = 1%:M *m flatten orig^T,
           solveSVD self b false = Ok inversion',
           dict_get (aStack inversion') "SVD" = Some (flatten orig^T)
         & dict_get (a inversion') "SVD" = Some orig].
Proof.
move=> orig self; split; first exact: sample_unit.
exact: (@noiseless_recovery _ _ _ _ self self 1%:M orig
          (erefl _) (erefl _) (erefl _) sample_unit).
Defined.

Lemma sample_cov_unit : (1%:M : 'M[rat]_2) \in unitmx.
Proof. exact: unitmx1. Qed.

Lemma sample_regularized_unit :
  let C := block_diag [tuple invmx (1%:M : 'M[rat]_2) | i < 1] in
  (0 : 'M[rat]_(1 * 2, 1 * 2))^T *m 0 + C^T *m C \in unitmx.
Proof.
by rewrite /= invmx1 block_diag1 mulmx0 add0r trmx1 mulmx1 unitmx1.
Qed.

Lemma tikhonov_solution_witness :
  let self := Sample.session 0 1%:M (const_mx 1) in
  let b : 'cV[rat]_(1 * 2) := const_mx 1 in
  let C := block_diag [tuple invmx (1%:M : 'M[rat]_2) | i < 1] in
  [/\ (1%:M : 'M[rat]_2) \in unitmx,
      (0 : 'M[rat]_(1 * 2, 1 * 2))^T *m 0 + C^T *m C \in unitmx
    & exists self' x est,
        [/\ solveSVD self b true = Ok self',
            ((0 : 'M[rat]_(1 * 2, 1 * 2))^T *m 0 + C^T *m C) *m x
            = (0 : 'M[rat]_(1 * 2, 1 * 2))^T *m b,
            dict_get (aStack self') "SVD" = Some x
          & dict_get (a self') "SVD" = Some est]
        /\ (forall (i : 'I_1) (p : 'I_2), est p i = x (blk i p) 0)
        /\ (forall (i i' : 'I_1) (p q : 'I_2),
              C (blk i p) (blk i' q)
              = if i == i' then invmx (1%:M : 'M[rat]_2) p q else 0)].
Proof.
move=> self b C; split; [exact: sample_cov_unit
                        | exact: sample_regularized_unit |].
exact: (@tikhonov_solution _ _ _ _ self b 0 1%:M (erefl _) (erefl _)
          sample_cov_unit sample_regularized_unit).
Defined.

Lemma sample_spectral :
  spectral_bound (1%:M : 'M[rat]_(1 * 2, 1 * 2))
                 (Sample.norm2 (1%:M : 'M[rat]_(1 * 2, 1 * 2))).
Proof. by split=> // x; rewrite mul1mx expr1n mul1r. Qed.

Lemma sample_spectral_tr :
  spectral_bound (1%:M : 'M[rat]_(1 * 2, 1 * 2))^T
                 (Sample.norm2 (1%:M : 'M[rat]_(1 * 2, 1 * 2))).
Proof. by rewrite trmx1; exact: sample_spectral. Qed.

Lemma sample_norm2_neq0 :
  Sample.norm2 (1%:M : 'M[rat]_(1 * 2, 1 * 2)) != 0.
Proof. exact: oner_neq0. Qed.

Lemma fasta_step_size_witness :
  let orig : 'M[rat]_(2, 1) := const_mx 1 in
  let self := Sample.session 1%:M 1%:M orig in
  let b : 'cV[rat]_(1 * 2) := const_mx 1 in
  let L := Sample.norm2 (1%:M : 'M[rat]_(1 * 2, 1 * 2)) ^+ 2 in
  [/\ Sample.norm2 (1%:M : 'M[rat]_(1 * 2, 1 * 2)) != 0,
      spectral_bound (1%:M : 'M[rat]_(1 * 2, 1 * 2))
                     (Sample.norm2 (1%:M : 'M[rat]_(1 * 2, 1 * 2))),
      spectral_bound (1%:M : 'M[rat]_(1 * 2, 1 * 2))^T
                     (Sample.norm2 (1%:M : 'M[rat]_(1 * 2, 1 * 2)))
    & exists (self' : tomography rat 1 2 1) (call : fasta_args rat 1 2 1),
        [/\ Sample.fasta self b = Ok self',
            dict_get (aStack self') "L1" = Some (Sample.fasta_optimize call),
            fa_tau call = 132%:R / 100%:R / L
          & forall x y,
              sq_norm (data_gradient call x - data_gradient call y)
              <= L ^+ 2 * sq_norm (x - y)]].
Proof.
move=> orig self b L.
split; [exact: sample_norm2_neq0 | exact: sample_spectral
       | exact: sample_spectral_tr |].
exact: (@fasta_step_size _ Sample.sqrt Sample.norm2 _ _ _ Sample.prox_l1
          Sample.fasta_optimize self b 1%:M (flatten orig^T)
          (erefl _) (erefl _) sample_norm2_neq0 sample_spectral
          sample_spectral_tr).
Defined.

Lemma sample_heights (i : 'I_1) :
  tnth (heights (Sample.start true)) i = tnth [tuple (0 : rat)] i * 1000%:R.
Proof. by rewrite /Sample.start /init_state /= tnth_map. Qed.

Lemma keep_list_zeroes_witness :
  let self := Sample.start true in
  let keep : seq rat := [:: 4%:R] in
  [/\ Sample.r0 != 0,
      (forall i, tnth (heights self) i = tnth [tuple (0 : rat)] i * 1000%:R)
    & exists self' orig,
        let draw :=
          Sample.multivariate_normal tt (const_mx 0)
            (kolmogorov_matrix Sample.pi Sample.sqrt Sample.gamma Sample.pow
               Sample.nollIndices self Sample.r0) in
        [/\ Sample.kolmogorov self tt Sample.r0 (Some keep)
            = Ok (self', draw.2),
            dict_get (a self') "Original" = Some orig,
            dict_get (aStack self') "Original" = Some (flatten orig^T)
          & forall (i : 'I_1) (p : 'I_2),
              orig p i
              = if tnth [tuple (0 : rat)] i \in keep then draw.1 i p else 0]].
Proof.
move=> self keep; split; [exact: sample_r0_neq0 | exact: sample_heights |].
exact: (keep_list_zeroes Sample.pi Sample.sqrt Sample.gamma Sample.pow
          Sample.nollIndices Sample.multivariate_normal tt keep
          sample_r0_neq0 sample_heights).
Defined.

Lemma sample_negative_DTel :
  DTel Sample.negative = - DTel (Sample.start true).
Proof. by []. Qed.

Lemma no_parameter_validation_witness :
  [/\ noll0 Sample.negative = noll0 (Sample.start true),
      DTel Sample.negative = - DTel (Sample.start true),
      kolmogorov_covariance Sample.pi Sample.sqrt Sample.gamma Sample.pow
        Sample.nollIndices Sample.negative (- Sample.r0)
      = kolmogorov_covariance Sample.pi Sample.sqrt Sample.gamma Sample.pow
          Sample.nollIndices (Sample.start true) Sample.r0
    & Sample.kolmogorov (Sample.start true) tt 0 None
      = Raise ZeroDivisionError].
Proof.
have [HK _ HZ _] :=
  @no_parameter_validation rat Sample.pi Sample.sqrt Sample.gamma Sample.pow
    Sample.nollIndices 1 2 1 unit Sample.multivariate_normal
    (Sample.start true) tt Sample.negative Sample.r0 Sample.L0 None
    (erefl _) sample_negative_DTel.
by split; [ | exact: sample_negative_DTel | exact: HK | exact: HZ].
Defined.

(** C7, the claim as stated fails: with a negative telescope diameter and a
    negative Fried parameter the Kolmogorov generator returns a covariance
    matrix. *)
Lemma negative_parameters_accepted :
  [/\ DTel Sample.negative <= 0, - Sample.r0 <= 0
     & builds (Sample.kolmogorov Sample.negative tt (- Sample.r0) None)
              (fun C => C = kolmogorov_matrix Sample.pi Sample.sqrt
                              Sample.gamma Sample.pow Sample.nollIndices
                              Sample.negative (- Sample.r0))].
Proof.
split.
- by rewrite /Sample.negative /init_state /= oppr_le0 ler0n.
- by rewrite oppr_le0 /Sample.r0 divr_ge0 ?ler0n.
- by apply: kolmogorov_builds; rewrite oppr_eq0 sample_r0_neq0.
Qed.

Lemma sample_covers : covers (Sample.start true) Sample.record.
Proof. exact: covers_own. Qed.

Lemma cached_construction_witness :
  let files := [::] ++ Sample.record :: [::] in
  let slice := cached_slice (Sample.start true) Sample.record in
  [/\ all (fun f => ~~ covers (Sample.start true) f) [::],
      covers (Sample.start true) Sample.record,
      exists self,
        [/\ Sample.construct 60%:R [tuple 0] 4%:R true true false files
            = Ok (self, files),
            M self = Some slice
          & MStack self = Some (stacked 1 2 1 slice)]
    & exists self,
        [/\ Sample.construct 60%:R [tuple 0] 4%:R false true false files
            = Ok (self, files),
            M self = Some slice,
            MStack self = None
          & generateWFS self = Raise AttributeError]].
Proof.
move=> files slice.
have [Ht Hf] :=
  @cached_construction rat Sample.pi 1 2 1 Sample.projector Sample.projector
    60%:R [tuple 0] 4%:R true false [::] [::] Sample.record
    (erefl _) sample_covers.
by split; [ | exact: sample_covers | exact: Ht | exact: Hf].
Defined.

Lemma solve_frame_witness :
  let orig : 'M[rat]_(2, 1) := const_mx 1 in
  let self := Sample.session 1%:M 1%:M orig in
  let b : 'cV[rat]_(1 * 2) := const_mx 1 in
  exists self',
    [/\ solveSVD self b false = Ok self',
        estimate_only self self',
        keeps_other_entries "SVD" self self'
      & dict_get (aStack self') "Original"
        = dict_get (aStack self) "Original"].
Proof.
move=> orig self b.
have Hs := solveSVD_plain b (erefl : MStack self = Some 1%:M) sample_unit.
have [Hw Hk _ Ho] :=
  proj1 (solve_frame Sample.sqrt Sample.norm2 Sample.prox_l1
           Sample.fasta_optimize self _ b false) Hs.
by eexists; split; [exact: Hs | exact: Hw | exact: Hk | exact: Ho].
Defined.

(** C10, the claim as stated fails: the sparse solver writes, besides the
    entries of its key, the attributes [self.mu] and [self.MStackStar], so
    the session after the call is not the session before it with new
    dictionaries. *)
Lemma fasta_writes_scratch :
  exists self' : tomography rat 1 2 1,
    [/\ Sample.fasta (Sample.session 1%:M 1%:M (const_mx 1)) (const_mx 1)
        = Ok self',
        mu (Sample.session 1%:M 1%:M (const_mx 1)) = None
        /\ mu self' = Some (10%:R ^- 5),
        MStackStar (Sample.session 1%:M 1%:M (const_mx 1)) = None
        /\ MStackStar self' = Some (1%:M)^T
      & ~ estimate_only (Sample.session 1%:M 1%:M (const_mx 1)) self'].
Proof.
have H :=
  @solveFASTA_ok rat Sample.sqrt Sample.norm2 1 2 1 Sample.prox_l1
    Sample.fasta_optimize (Sample.session 1%:M 1%:M (const_mx 1))
    (const_mx 1) 1%:M (flatten (const_mx 1 : 'M[rat]_(2, 1))^T)
    (erefl _) (erefl _).
eexists; split; first exact: H.
- split; reflexivity.
- split; reflexivity.
- move=> E; have Emu := congr1 (@mu _ _ _ _) E.
  discriminate Emu.
Qed.

(** The hypotheses of the further properties, at the sample session. *)

Lemma store_round_trip_witness :
  all (fun f => ~~ covers (Sample.start false) f) [::]
  /\ exists first second files',
       [/\ Sample.construct 60%:R [tuple 0] 4%:R false true false [::]
           = Ok (first, files'),
           Sample.construct 60%:R [tuple 0] 4%:R true true false files'
           = Ok (second, files')
         & MStack second = MStack first].
Proof.
split; first by [].
have [first [second [H1 _ H2 H3]]] :=
  @store_round_trip rat Sample.pi 1 2 1 Sample.projector Sample.projector
    60%:R [tuple 0] 4%:R true false false [::] (erefl _).
by exists first, second; eexists; split; [exact: H1 | exact: H2 | exact: H3].
Defined.

Lemma computeProjection_guard_witness :
  MComputed (Sample.start true) = false
  /\ exists self' files',
       [/\ computeProjection Sample.projector Sample.projector
             (Sample.start true) [::] = Ok (self', files'),
           MComputed self' = false
         & size files' = 1%N].
Proof.
split; first by [].
have [self' [files' [H1 H2 H3 _]]] :=
  proj2 (computeProjection_guard Sample.projector Sample.projector
           (Sample.start true) [::]) (erefl _).
by exists self', files'; split.
Defined.

Lemma sample_heights_seq : tval (heights (Sample.start true)) = [:: 0].
Proof. by rewrite /Sample.start /init_state [tval _]/= mul0r. Qed.

Lemma sample_superset_uniq : uniq (arr_1 Sample.superset).
Proof.
rewrite -[arr_1 _]/(rcons (heights (Sample.start true)) 1).
by rewrite rcons_uniq sample_heights_seq inE oner_eq0.
Qed.

Lemma superset_slice_witness :
  [/\ uniq (arr_1 Sample.superset),
      subseq (heights (Sample.start true)) (arr_1 Sample.superset)
    & size (cached_indices (Sample.start true) Sample.superset) = 1%N].
Proof.
split; [exact: sample_superset_uniq | exact: subseq_rcons |].
exact: (proj1 (@superset_slice rat 1 2 1 (Sample.start true) Sample.superset
                 sample_superset_uniq (subseq_rcons _ _))).
Defined.

Lemma generateWFS_entries_witness :
  let M0 : tensor4 rat := fun p q h s => (p == q)%:R in
  let orig : 'M[rat]_(2, 1) := const_mx 1 in
  let self := Sample.session (stacked 1 2 1 M0) 1%:M orig in
  exists b,
    generateWFS self = Ok b
    /\ forall (j : 'I_1) (p : 'I_2),
         b (blk j p) 0 = \sum_(i < 1) \sum_(q < 2) M0 p q i j * orig q i.
Proof.
move=> M0 orig self.
exact: (@generateWFS_entries rat 1 2 1 self M0 orig (erefl _) (erefl _)).
Defined.

Lemma underdetermined_measurement_witness :
  [/\ (1 < 2)%N, (0 < 1)%N
    & exists d : 'cV[rat]_(2 * 1),
        d != 0
        /\ forall x,
             generateWFS
               (set_aStack Sample.underdetermined
                  (dict_set (aStack Sample.underdetermined) "Original"
                     (x + d)))
             = generateWFS
                 (set_aStack Sample.underdetermined
                    (dict_set (aStack Sample.underdetermined) "Original" x))].
Proof.
split=> //.
have [_ [d [Hd Hx]]] :=
  @underdetermined_measurement rat 1 1 2 Sample.underdetermined (const_mx 1)
    (erefl _) (erefl _) (erefl _).
by exists d; split=> // x; have [-> ->] := Hx x.
Defined.

Lemma sample_real (x : rat) : x \is Num.real.
Proof. exact: num_real. Qed.

Lemma solveSVD_regularized_returns_witness :
  let self := Sample.session 0 1%:M (const_mx 1) in
  [/\ forall x : rat, x \is Num.real, (1%:M : 'M[rat]_2) \in unitmx
    & exists self', solveSVD self (const_mx 1) true = Ok self'].
Proof.
move=> self; split; [exact: sample_real | exact: sample_cov_unit |].
exact: (proj2 (@solveSVD_regularized_returns rat 1 2 1 sample_real self
                 (const_mx 1) 0 1%:M (erefl _) (erefl _) sample_cov_unit)).
Defined.

Lemma sample_prox_elementwise : elementwise Sample.prox_l1.
Proof. by exists (fun v _ => v). Qed.

Lemma proxgHeight_proxg_witness :
  elementwise Sample.prox_l1
  /\ _proxgHeight Sample.prox_l1 1 (const_mx 1 : 'cV[rat]_(1 * 2)) 1
     = _proxg Sample.prox_l1 1 (const_mx 1) 1.
Proof.
split; first exact: sample_prox_elementwise.
exact: (proxgHeight_proxg 1 (const_mx 1 : 'cV[rat]_(1 * 2)) 1
          sample_prox_elementwise).
Defined.

Lemma solveFASTA_original_witness :
  let self1 := Sample.session 1%:M 1%:M (const_mx 1) in
  let self2 := Sample.session 1%:M 1%:M 0 in
  let b : 'cV[rat]_(1 * 2) := const_mx 1 in
  exists out1 out2,
    [/\ Sample.fasta self1 b = Ok out1, Sample.fasta self2 b = Ok out2,
        dict_get (aStack out1) "L1" = dict_get (aStack out2) "L1"
      & dict_get (a out1) "L1" = dict_get (a out2) "L1"].
Proof.
move=> self1 self2 b.
exact: (proj1 (@solveFASTA_original rat Sample.sqrt Sample.norm2 1 2 1
                 Sample.prox_l1 Sample.fasta_optimize self1 self2 b 1%:M
                 _ _ (erefl _) (erefl _) (erefl _) (erefl _))).
Defined.

Lemma solvers_commute_witness :
  let self := Sample.session 1%:M 1%:M (const_mx 1) in
  let b : 'cV[rat]_(1 * 2) := const_mx 1 in
  (1%:M : 'M[rat]_(1 * 2))^T *m 1%:M \in unitmx
  /\ exists svd_l1 l1_svd,
       [/\ (s <- solveSVD self b false ;; Sample.fasta s b) = Ok svd_l1,
           (s <- Sample.fasta self b ;; solveSVD s b false) = Ok l1_svd,
           forall k, dict_get (a svd_l1) k = dict_get (a l1_svd) k
         & forall k, dict_get (aStack svd_l1) k = dict_get (aStack l1_svd) k].
Proof.
move=> self b; split; first exact: sample_unit.
have [s12 [s21 [H1 H2 H3 H4 _]]] :=
  @solvers_commute rat Sample.sqrt Sample.norm2 1 2 1 Sample.prox_l1
    Sample.fasta_optimize self b 1%:M _ (erefl _) sample_unit (erefl _).
by exists s12, s21; split.
Defined.

Lemma sample_doubled_DTel :
  DTel Sample.doubled = 2%:R * DTel (Sample.start true).
Proof. by rewrite /Sample.doubled /Sample.start /init_state /= -natrM. Qed.

Lemma covariance_scaling_witness :
  [/\ (2%:R : rat) != 0, Sample.r0 != 0, Sample.L0 != 0,
      DTel Sample.doubled = 2%:R * DTel (Sample.start true)
    & kolmogorov_covariance Sample.pi Sample.sqrt Sample.gamma Sample.pow
        Sample.nollIndices Sample.doubled (2%:R * Sample.r0)
      = kolmogorov_covariance Sample.pi Sample.sqrt Sample.gamma Sample.pow
          Sample.nollIndices (Sample.start true) Sample.r0].
Proof.
have H2 : (2%:R : rat) != 0 by rewrite pnatr_eq0.
split; [exact: H2 | exact: sample_r0_neq0 | exact: sample_L0_neq0
       | exact: sample_doubled_DTel |].
exact: (proj1 (@covariance_scaling rat Sample.pi Sample.sqrt Sample.gamma
                 Sample.pow Sample.nollIndices 1 2 1 (Sample.start true)
                 Sample.doubled 2%:R Sample.r0 Sample.L0 H2 sample_r0_neq0
                 sample_L0_neq0 (erefl _) sample_doubled_DTel)).
Defined.

Lemma sample_consistent : consistent (Sample.start true).
Proof. by []. Qed.

Lemma consistent_preserved_witness :
  consistent (Sample.start true)
  /\ forall self' g',
       Sample.kolmogorov (Sample.start true) tt Sample.r0 None
       = Ok (self', g') -> consistent self'.
Proof.
split; first exact: sample_consistent.
by have [H _ _ _] :=
  @consistent_preserved rat Sample.pi Sample.sqrt Sample.gamma Sample.pow
    Sample.norm2 Sample.nollIndices 1 2 1 unit Sample.multivariate_normal
    Sample.prox_l1 Sample.fasta_optimize (Sample.start true) tt Sample.r0
    Sample.L0 None (const_mx 1) false sample_consistent.
Defined.

Lemma sample_DTel_neq0 : (4%:R : rat) != 0.
Proof. by rewrite pnatr_eq0. Qed.

Lemma footprint_geometry_witness :
  (4%:R : rat) != 0
  /\ forall (i : 'I_1) (j : 'I_1),
       tnth [tuple (0 : rat)] i = 0 ->
       t (Sample.start true) i j = 0 /\ beta (Sample.start true) i j = 1.
Proof.
split; first exact: sample_DTel_neq0.
move=> i j.
exact: (proj2 (@footprint_geometry rat Sample.pi 1 2 1 60%:R [tuple 0] 4%:R
                 true true false i j sample_DTel_neq0)).
Defined.

Lemma empty_keep_list_witness :
  let self := Sample.session 1%:M 1%:M (const_mx 1) in
  Sample.r0 != 0
  /\ exists self',
       [/\ Sample.kolmogorov self tt Sample.r0 (Some [::]) = Ok (self', tt),
           dict_get (a self') "Original" = Some 0
         & generateWFS self' = Ok 0].
Proof.
move=> self; split; first exact: sample_r0_neq0.
exact: (proj1 (@empty_keep_list rat Sample.pi Sample.sqrt Sample.gamma
                 Sample.pow Sample.nollIndices 1 2 1 unit
                 Sample.multivariate_normal self tt Sample.r0 1%:M
                 sample_r0_neq0 (erefl _))).
Defined.

Lemma fasta_operators_witness :
  let self := Sample.session 1%:M 1%:M (const_mx 1) in
  let b : 'cV[rat]_(1 * 2) := const_mx 1 in
  exists (args : fasta_args rat 1 2 1) out,
    [/\ Sample.fasta self b = Ok out,
        forall x y, (fa_A args x)^T *m y = x^T *m fa_At args y
      & fa_x0 args = 0].
Proof.
move=> self b.
have [args [out [H1 _ H2 H3 _]]] :=
  @fasta_operators rat Sample.sqrt Sample.norm2 1 2 1 Sample.prox_l1
    Sample.fasta_optimize self b 1%:M _ (erefl _) (erefl _).
by exists args, out; split.
Defined.

Lemma g_definite_witness :
  (0 : rat) < 1
  /\ (_g 1 (const_mx 1 : 'cV[rat]_(1 * 2)) == 0)
     = ((const_mx 1 : 'cV[rat]_(1 * 2)) == 0).
Proof.
split; first exact: ltr01.
exact: (proj2 (@g_definite rat 2 1 1 (const_mx 1) ltr01)).
Defined.

Lemma init_outcome_witness :
  exists self files',
    [/\ Sample.construct 60%:R [tuple 0] 4%:R false true false [::]
        = Ok (self, files'),
        size files' = 1%N
      & (MStack self == None) = false].
Proof.
have H :=
  @init_miss rat Sample.pi 1 2 1 Sample.projector Sample.projector
    60%:R [tuple 0] 4%:R true false false [::] (erefl _).
have [_ _ Hm _] := init_outcome H.
by eexists; eexists; split; [exact: H | | exact: Hm].
Defined.

End Witnesses.

(** ** Where rounding decides *)

Section Rounding.

(** C6. On floats the keep-list misses a layer it names.  The height
    21.455680991172585 km is in the keep-list, but the constructor stores
    it in metres and the generator divides it by [1e3] again, which gives
    21.45568099117259: the test [not in keepOnly] holds and the column of
    the layer is set to zero, whatever was drawn for it. *)
Theorem keep_list_rounding :
  [/\ has (PrimFloat.eqb Doubles.layer_km) [:: Doubles.layer_km],
      Doubles.not_in
        (PrimFloat.div
           (nth 0%float (Doubles.init_heights [:: Doubles.layer_km]) 0)
           1e3%float)
        [:: Doubles.layer_km]
    & forall draw : float,
        Doubles.keep_layers (Doubles.init_heights [:: Doubles.layer_km])
          [:: Doubles.layer_km] [:: [:: draw]]
        = [:: [:: 0%float]]].
Proof. by split=> [| | draw]; vm_compute. Qed.

(** C3, the claim as stated fails in double precision.  The stacked matrix
    [[1, 2], [3, 6.00001]] has the determinant [6.00001 - 6], which the
    floats compute exactly and which is not zero, so the normal matrix is
    invertible, and [np.linalg.inv] returns.  The realization [(1, 1)] is
    measured without noise, and the first coefficient of the estimate is
    off by more than [1e-4]: the relative error of the estimate, whose
    denominator is the norm [sqrt 2] of the realization, is above [1e-8]
    by four orders of magnitude, as the condition number [1e13] of the
    normal matrix lets expect whatever the order of the operations. *)
Lemma noiseless_recovery_rounding :
  exists b est : Doubles.vector,
    [/\ PrimFloat.ltb 0%float
          (PrimFloat.sub (PrimFloat.mul 1%float 6.00001%float)
                         (PrimFloat.mul 2%float 3%float)),
        Doubles.generateWFS Doubles.sample_MStack [:: 1%float; 1%float] = b,
        Doubles.solveSVD Doubles.sample_MStack b = Ok est
      & PrimFloat.ltb 1e-4%float
          (PrimFloat.abs (PrimFloat.sub (nth 0%float est 0) 1%float))].
Proof.
eexists; eexists; split.
- by vm_compute.
- by vm_compute; reflexivity.
- by vm_compute; reflexivity.
- by vm_compute.
Qed.

End Rounding.
